(** * myModule.py: contrastive losses and model wrappers, embedded in Rocq

    The Python module defines [nn.Module] subclasses whose [forward] methods
    are tensor programs.  The embedding keeps

    - tensors as the framework stores them: a shape and the row-major list of
      the elements;
    - floating-point arithmetic abstract: the scalar type and its kernels
      ([exp], [log], the reduction [sum], the cosine of two vectors) are the
      members of the class [Scalar], so every statement holds for whatever
      the framework computes;
    - Python's exceptions as an error monad, and a method of an object as a
      state-passing computation over the record of the object's attributes. *)

From Stdlib Require Import String ZArith Lia Bool Arith PeanoNat List.
Import ListNotations.
Local Open Scope string_scope.
Local Open Scope nat_scope.
Local Open Scope list_scope.

Set Implicit Arguments.

(** ** Exceptions and the two monads *)

Inductive exn : Set :=
| NotImplementedError
| TypeError
| UnboundLocalError
| AttributeError
| RuntimeError
| IndexError
| ValueError.

Inductive result (A : Type) : Type :=
| Ok (a : A)
| Raise (e : exn).

Arguments Ok {A} a.
Arguments Raise {A} e.

(** A method runs on the attribute record [S] of its receiver and hands the
    record back, also when it raises. *)
Definition method (S A : Type) : Type := S -> result A * S.

Class Monad (M : Type -> Type) : Type := {
  ret : forall {A : Type}, A -> M A;
  bind : forall {A B : Type}, M A -> (A -> M B) -> M B
}.

#[global] Instance result_Monad : Monad result := {|
  ret := fun A a => Ok a;
  bind := fun A B m k => match m with Ok a => k a | Raise e => Raise e end
|}.

#[global] Instance method_Monad (S : Type) : Monad (method S) := {|
  ret := fun A a s => (Ok a, s);
  bind := fun A B m k s =>
    match m s with
    | (Ok a, s') => k a s'
    | (Raise e, s') => (Raise e, s')
    end
|}.

Notation "x <- m ;; k" := (bind m (fun x => k))
  (at level 61, m at next level, right associativity).
Notation "' pat <- m ;; k" := (bind m (fun x => match x with pat => k end))
  (at level 61, pat pattern, m at next level, right associativity).

(** [self.f]: read an attribute. *)
Definition getattr {S A : Type} (f : S -> A) : method S A :=
  fun s => (Ok (f s), s).

(** [self.f = v]: write an attribute ([upd] is the record update). *)
Definition setattr {S A : Type} (upd : A -> S -> S) (v : A) : method S unit :=
  fun s => (Ok tt, upd v s).

(** A call of a framework function, which cannot see the receiver. *)
Definition call {S A : Type} (r : result A) : method S A :=
  fun s => (r, s).

Definition throw {S A : Type} (e : exn) : method S A :=
  fun s => (Raise e, s).

(** [self.f(...)]: run the method of a sub-module stored in attribute [f]. *)
Definition on_attr {S T A : Type} (f : S -> T) (upd : T -> S -> S)
    (m : method T A) : method S A :=
  fun s => let (r, t') := m (f s) in (r, upd t' s).

Definition is_ok {A : Type} (r : result A) : bool :=
  match r with Ok _ => true | Raise _ => false end.

(** Monadic map over a list, left to right, stopping at the first raise:
    a list comprehension or an appending loop. *)
Fixpoint mapM {A B : Type} (f : A -> result B) (l : list A) : result (list B) :=
  match l with
  | [] => Ok []
  | a :: l' => b <- f a ;; bs <- mapM f l' ;; Ok (b :: bs)
  end.

(** ** Scalars

    The element type of a floating tensor with the kernels the module uses.
    [fsum] is the framework's reduction of a sequence of elements (its
    accumulation order is the framework's business), [cosine_vec] the cosine
    similarity of two vectors as [F.cosine_similarity] computes it along one
    dimension, [of_nat] the conversion of a count. *)

Class Scalar : Type := {
  num : Type;
  fzero : num;
  fone : num;
  fadd : num -> num -> num;
  fsub : num -> num -> num;
  fmul : num -> num -> num;
  fdiv : num -> num -> num;
  fneg : num -> num;
  fexp : num -> num;
  flog : num -> num;
  fsqrt : num -> num;
  fsum : list num -> num;
  of_nat : nat -> num;
  cosine_vec : list num -> list num -> num
}.

(** ** Tensors *)

Record tensor (A : Type) : Type := mkTensor {
  shape : list nat;
  data : list A
}.

Arguments mkTensor {A} shape data.

Definition prod (s : list nat) : nat := fold_right Nat.mul 1 s.

Definition ndim {A} (t : tensor A) : nat := length (shape t).
Definition numel {A} (t : tensor A) : nat := prod (shape t).

(** The storage holds exactly the elements the shape announces. *)
Definition wf {A} (t : tensor A) : Prop := length (data t) = numel t.

Definition scalar {A} (x : A) : tensor A := mkTensor [] [x].

(** [chunk k n l]: the first [n] consecutive blocks of [k] elements. *)
Fixpoint chunk {A} (k n : nat) (l : list A) : list (list A) :=
  match n with
  | 0 => []
  | S n' => firstn k l :: chunk k n' (skipn k l)
  end.

(** Column [j] of a list of rows, and the [p] columns of rows of width [p]. *)
Definition column {A} (j : nat) (rows : list (list A)) : list A :=
  flat_map (fun r => firstn 1 (skipn j r)) rows.

Definition transpose {A} (p : nat) (rows : list (list A)) : list (list A) :=
  map (fun j => column j rows) (seq 0 p).

Definition tmap {A B} (f : A -> B) (t : tensor A) : tensor B :=
  mkTensor (shape t) (map f (data t)).

Definition map2 {A B C} (f : A -> B -> C) (l : list A) (m : list B) : list C :=
  map (fun p => f (fst p) (snd p)) (combine l m).

(** *** Dimensions *)

(** A dimension argument [d] of a tensor with [n] dimensions: negative
    values count from the end; outside [-n, n-1] the framework raises. *)
Definition wrap_dim (n : nat) (d : Z) : result nat :=
  if ((- Z.of_nat n <=? d) && (d <? Z.of_nat n))%Z
  then Ok (Z.to_nat (if (d <? 0)%Z then d + Z.of_nat n else d)%Z)
  else Raise IndexError.

(** [t.unsqueeze(d)]: a dimension of size one inserted at position [d]. *)
Definition unsqueeze {A} (t : tensor A) (d : Z) : result (tensor A) :=
  k <- wrap_dim (S (ndim t)) d ;;
  Ok (mkTensor (firstn k (shape t) ++ 1 :: skipn k (shape t)) (data t)).

(** [t.reshape(s)] with explicit sizes. *)
Definition reshape {A} (t : tensor A) (s : list nat) : result (tensor A) :=
  if numel t =? prod s then Ok (mkTensor s (data t)) else Raise RuntimeError.

(** [t.reshape(-1)]. *)
Definition flatten {A} (t : tensor A) : tensor A :=
  mkTensor [numel t] (data t).

(** [t.shape[0]]. *)
Definition shape0 {A} (t : tensor A) : result nat :=
  match shape t with
  | n :: _ => Ok n
  | [] => Raise IndexError
  end.

(** [len(t)]. *)
Definition len {A} (t : tensor A) : result nat :=
  match shape t with
  | n :: _ => Ok n
  | [] => Raise TypeError
  end.

(** [t[i]] for a non-negative [i]. *)
Definition select0 {A} (t : tensor A) (i : nat) : result (tensor A) :=
  match shape t with
  | n :: s =>
      if i <? n
      then Ok (mkTensor s (firstn (prod s) (skipn (i * prod s) (data t))))
      else Raise IndexError
  | [] => Raise IndexError
  end.

(** [t[i, k]]. *)
Definition select2 {A} (t : tensor A) (i k : nat) : result (tensor A) :=
  r <- select0 t i ;; select0 r k.

(** [t[:, j]]. *)
Definition select1 {A} (t : tensor A) (j : nat) : result (tensor A) :=
  match shape t with
  | n :: m :: s =>
      if j <? m
      then Ok (mkTensor (n :: s)
                 (flat_map (fun b => firstn (prod s) (skipn (j * prod s) b))
                           (chunk (m * prod s) n (data t))))
      else Raise IndexError
  | _ => Raise IndexError
  end.

(** [for r in t]: the sub-tensors along the first dimension. *)
Definition iterate {A} (t : tensor A) : result (list (tensor A)) :=
  match shape t with
  | n :: s => Ok (map (mkTensor s) (chunk (prod s) n (data t)))
  | [] => Raise TypeError
  end.

(** *** Broadcasting *)

(** The common shape of two shapes, both given last dimension first. *)
Fixpoint broadcast_rev (a b : list nat) : option (list nat) :=
  match a, b with
  | [], _ => Some b
  | _, [] => Some a
  | x :: a', y :: b' =>
      if x =? y then option_map (cons x) (broadcast_rev a' b')
      else if x =? 1 then option_map (cons y) (broadcast_rev a' b')
      else if y =? 1 then option_map (cons x) (broadcast_rev a' b')
      else None
  end.

Definition broadcast_shapes (a b : list nat) : result (list nat) :=
  match broadcast_rev (rev a) (rev b) with
  | Some s => Ok (rev s)
  | None => Raise RuntimeError
  end.

(** A shape padded on the left with ones up to [r] dimensions. *)
Definition pad_shape (r : nat) (s : list nat) : list nat :=
  repeat 1 (r - length s) ++ s.

(** The storage of a tensor of shape [s] expanded to the shape [t] of the
    same length: a dimension of size one in [s] is repeated. *)
Fixpoint expand_data {A} (s t : list nat) (d : list A) : list A :=
  match s, t with
  | n :: s', m :: t' =>
      if n =? m
      then flat_map (expand_data s' t') (chunk (prod s') n d)
      else concat (repeat (expand_data s' t' d) m)
  | _, _ => d
  end.

Definition expand {A} (x : tensor A) (t : list nat) : tensor A :=
  mkTensor t (expand_data (pad_shape (length t) (shape x)) t (data x)).

(** An element-wise binary operator on two broadcastable tensors. *)
Definition binop {A B C} (f : A -> B -> C) (x : tensor A) (y : tensor B)
    : result (tensor C) :=
  s <- broadcast_shapes (shape x) (shape y) ;;
  Ok (mkTensor s (map2 f (data (expand x s)) (data (expand y s)))).

Fixpoint shape_eqb (a b : list nat) : bool :=
  match a, b with
  | [], [] => true
  | x :: a', y :: b' => (x =? y) && shape_eqb a' b'
  | _, _ => false
  end.

(** [torch.stack(l)] along a new first dimension. *)
Definition stack {A} (l : list (tensor A)) : result (tensor A) :=
  match l with
  | [] => Raise RuntimeError
  | t :: _ =>
      if forallb (fun u => shape_eqb (shape u) (shape t)) l
      then Ok (mkTensor (length l :: shape t) (flat_map (@data A) l))
      else Raise RuntimeError
  end.

(** Concatenation of tensors along dimension [d]: the shapes agree outside
    that dimension. *)
Definition cat {A} (l : list (tensor A)) (d : Z) : result (tensor A) :=
  match l with
  | [] => Raise RuntimeError
  | t :: _ =>
      k <- wrap_dim (ndim t) d ;;
      let pre := firstn k (shape t) in
      let post := skipn (S k) (shape t) in
      let width u := nth k (shape u) 0 * prod post in
      if forallb (fun u => (k <? ndim u)
                           && shape_eqb (firstn k (shape u)) pre
                           && shape_eqb (skipn (S k) (shape u)) post) l
      then Ok (mkTensor
                 (pre ++ fold_right (fun u n => nth k (shape u) 0 + n) 0 l :: post)
                 (flat_map
                    (fun b => flat_map
                       (fun u => nth b (chunk (width u) (prod pre) (data u)) []) l)
                    (seq 0 (prod pre))))
      else Raise RuntimeError
  end.

(** [t.repeat(1, l)] of a tensor of at most two dimensions: every row is
    written [l] times in a row. *)
Definition repeat_cols {A} (t : tensor A) (l : nat) : result (tensor A) :=
  match pad_shape 2 (shape t) with
  | [n; m] =>
      Ok (mkTensor [n; m * l]
            (flat_map (fun row => concat (repeat row l)) (chunk m n (data t))))
  | _ => Raise RuntimeError
  end.

(** [torch.arange(n).long()]. *)
Definition arange (n : nat) : tensor nat := mkTensor [n] (seq 0 n).

(** ** Floating tensors *)

Section Torch.

Context {SC : Scalar}.

Definition ftensor : Type := tensor num.

Definition fmean (l : list num) : num := fdiv (fsum l) (of_nat (length l)).

(** [torch.sum(t)] and [t.mean()] over all elements. *)
Definition sum_all (t : ftensor) : ftensor := scalar (fsum (data t)).
Definition mean_all (t : ftensor) : ftensor := scalar (fmean (data t)).

(** A block of [n] rows of width [p] reduced column by column. *)
Definition reduce_block (f : list num -> num) (n p : nat) (block : list num)
    : list num :=
  map f (transpose p (chunk p n block)).

(** A reduction along dimension [d], the dimension removed
    ([keepdim=False]). *)
Definition reduce_dim (f : list num -> num) (t : ftensor) (d : Z)
    : result ftensor :=
  k <- wrap_dim (ndim t) d ;;
  let pre := firstn k (shape t) in
  match skipn k (shape t) with
  | n :: post =>
      Ok (mkTensor (pre ++ post)
            (flat_map (reduce_block f n (prod post))
                      (chunk (n * prod post) (prod pre) (data t))))
  | [] => Raise IndexError
  end.

(** [torch.mean(t, dim=d, keepdim=False)]. *)
Definition mean_dim (t : ftensor) (d : Z) : result ftensor :=
  reduce_dim fmean t d.

(** [t.sum(dim=[1, 2])]. *)
Definition sum_dims12 (t : ftensor) : result ftensor :=
  match shape t with
  | n :: a :: b :: post =>
      Ok (mkTensor (n :: post)
            (flat_map (reduce_block fsum (a * b) (prod post))
                      (chunk (a * b * prod post) n (data t))))
  | _ => Raise IndexError
  end.

(** [F.cosine_similarity(x1, x2, dim=-1)]: both arguments are expanded to
    their common shape and the last dimension is reduced by [cosine_vec]. *)
Definition cosine_similarity (x1 x2 : ftensor) : result ftensor :=
  s <- broadcast_shapes (shape x1) (shape x2) ;;
  match rev s with
  | h :: r =>
      let out := rev r in
      Ok (mkTensor out
            (map2 cosine_vec (chunk h (prod out) (data (expand x1 s)))
                             (chunk h (prod out) (data (expand x2 s)))))
  | [] => Ok (scalar (cosine_vec (data x1) (data x2)))
  end.

(** The loss of one row of scores for the class [y]:
    [- log (exp x_y / sum_c exp x_c)]. *)
Definition nll (row : list num) (y : nat) : num :=
  fneg (flog (fdiv (fexp (nth y row fzero)) (fsum (map fexp row)))).

(** [F.cross_entropy(input, target)] for class-index targets, with the
    default mean reduction: [input] is [N, C], [target] is [N] and every
    target is a class below [C]. *)
Definition cross_entropy (input : ftensor) (target : tensor nat)
    : result ftensor :=
  match shape input, shape target with
  | [n; c], [m] =>
      if n =? m
      then if forallb (fun y => y <? c) (data target)
           then Ok (scalar (fmean (map2 nll (chunk c n (data input))
                                            (data target))))
           else Raise IndexError
      else Raise ValueError
  | _, _ => Raise RuntimeError
  end.

(** [torch.ones(n, m)] and [torch.eye(n)]. *)
Definition ones (n m : nat) : ftensor := mkTensor [n; m] (repeat fone (n * m)).

Definition eye (n : nat) : ftensor :=
  mkTensor [n; n]
    (flat_map (fun i => map (fun j => if i =? j then fone else fzero) (seq 0 n))
              (seq 0 n)).

(** Element-wise operators. *)
Definition tadd : ftensor -> ftensor -> result ftensor := binop fadd.
Definition tsub : ftensor -> ftensor -> result ftensor := binop fsub.
Definition tmul : ftensor -> ftensor -> result ftensor := binop fmul.
Definition tdiv : ftensor -> ftensor -> result ftensor := binop fdiv.

Definition texp : ftensor -> ftensor := tmap fexp.
Definition tlog : ftensor -> ftensor := tmap flog.
Definition tsqrt : ftensor -> ftensor := tmap fsqrt.
Definition tneg : ftensor -> ftensor := tmap fneg.

(** [t.pow(2)]. *)
Definition tsquare : ftensor -> ftensor := tmap (fun x => fmul x x).

(** [t / c] and [c * t] for a Python number [c]. *)
Definition div_scalar (t : ftensor) (c : num) : ftensor :=
  tmap (fun x => fdiv x c) t.
Definition scalar_mul (c : num) (t : ftensor) : ftensor :=
  tmap (fun x => fmul c x) t.

(** *** [torch.cat] as a Python callable

    Its signature is [cat(tensors, dim=0)]: [tensors] is a sequence (tuple
    or list) of tensors.  The argument parser accepts a call only when the
    positional and keyword arguments fit that signature. *)

Inductive pyarg : Type :=
| ATensor (t : ftensor)
| ASeq (l : list ftensor)
| AInt (z : Z).

Definition torch_cat (args : list pyarg) (kwargs : list (string * pyarg))
    : result ftensor :=
  match args, kwargs with
  | [ASeq l], [] => cat l 0
  | [ASeq l; AInt d], [] => cat l d
  | [ASeq l], [(k, AInt d)] => if String.eqb k "dim" then cat l d else Raise TypeError
  | [], [(k1, ASeq l); (k2, AInt d)] =>
      if String.eqb k1 "tensors" && String.eqb k2 "dim" then cat l d
      else Raise TypeError
  | [], [(k2, AInt d); (k1, ASeq l)] =>
      if String.eqb k1 "tensors" && String.eqb k2 "dim" then cat l d
      else Raise TypeError
  | [], [(k1, ASeq l)] => if String.eqb k1 "tensors" then cat l 0 else Raise TypeError
  | _, _ => Raise TypeError
  end.

End Torch.

(** ** Python objects the module relies on *)

(** [super().__init__()] in a subclass of [nn.Module]: the initialiser of
    [nn.Module], which succeeds. *)
Definition Module__init__ : result unit := Ok tt.

(** [super] without parentheses is the builtin type itself, and
    [super.__init__] the unbound initialiser of that type: like every
    unbound method it takes its receiver as first positional argument and
    accepts only an instance of [super] there. *)
Inductive pyobj : Set :=
| SuperProxy
| ModuleInstance.

Definition super__init__ (args : list pyobj) : result unit :=
  match args with
  | [] => Raise TypeError
  | SuperProxy :: _ => Ok tt
  | ModuleInstance :: _ => Raise TypeError
  end.

(** A local variable is a slot that holds a value once it was assigned;
    reading an empty slot raises. *)
Definition load_local {A} (slot : option A) : result A :=
  match slot with
  | Some v => Ok v
  | None => Raise UnboundLocalError
  end.

(** What the model hub hands out for a model name. *)
Inductive pretrained : Set :=
| Tokenizer (name : string)
| Encoder (name : string).

Definition AutoTokenizer_from_pretrained (name : string) : pretrained :=
  Tokenizer name.
Definition AutoModel_from_pretrained (name : string) : pretrained :=
  Encoder name.

(** ** SimCSE *)

Module UnsupContrastiveLoss.
Section Class.
Context {SC : Scalar}.

Record t : Type := { temp : num }.

Definition __init__ (temp : num) : result t :=
  _ <- Module__init__ ;;
  Ok {| temp := temp |}.

Definition forward (first second : ftensor) : method t (ftensor * ftensor) :=
  x1 <- call (unsqueeze first 1) ;;
  x2 <- call (unsqueeze second 0) ;;
  c <- call (cosine_similarity x1 x2) ;;
  temp <- getattr temp ;;
  let sim := div_scalar c temp in
  n <- call (shape0 sim) ;;
  let label := arange n in
  loss <- call (cross_entropy sim label) ;;
  ret (loss, sim).

End Class.
End UnsupContrastiveLoss.

Module SupContrastiveLoss.
Section Class.
Context {SC : Scalar}.

Record t : Type := { temp : num }.

Definition __init__ (temp : num) : result t :=
  _ <- Module__init__ ;;
  Ok {| temp := temp |}.

Definition forward (premise entail contra : ftensor)
    : method t (ftensor * ftensor) :=
  p1 <- call (unsqueeze premise 1) ;;
  e0 <- call (unsqueeze entail 0) ;;
  c <- call (cosine_similarity p1 e0) ;;
  temp1 <- getattr temp ;;
  let sim_pre_ent := div_scalar c temp1 in
  p1' <- call (unsqueeze premise 1) ;;
  c0 <- call (unsqueeze contra 0) ;;
  c' <- call (cosine_similarity p1' c0) ;;
  temp2 <- getattr temp ;;
  let sim_pre_contra := div_scalar c' temp2 in
  sim_pre_ent_contra <-
    call (torch_cat [ATensor sim_pre_ent; ATensor sim_pre_contra]
                    [("dim", AInt (-1))]) ;;
  n <- call (shape0 sim_pre_ent) ;;
  let label := arange n in
  loss <- call (cross_entropy sim_pre_ent_contra label) ;;
  ret (loss, sim_pre_ent_contra).

End Class.
End SupContrastiveLoss.

(** The two wrappers call [self.bert(input_ids=..., attention_mask=...,
    token_type_ids=...).pooler_output].  [pooler] stands for the forward
    pass of the pretrained encoder of a given name; a tokenizer called with
    these keywords and no text rejects the call.

    In both wrappers [__init__] takes [temp] from its caller (the source
    gives it the default 0.05), and [forward] leaves out the parameters
    [labels] and [inputs_embeds], which the source accepts and never
    reads. *)
Section Hub.
Context {SC : Scalar}.
Variable pooler : string -> tensor Z -> tensor Z -> tensor Z -> result ftensor.

Definition pooler_output (m : pretrained)
    (input_ids attention_mask token_type_ids : tensor Z) : result ftensor :=
  match m with
  | Encoder name => pooler name input_ids attention_mask token_type_ids
  | Tokenizer _ => Raise TypeError
  end.

End Hub.

Module UnsupSimCSE.
Section Class.
Context {SC : Scalar}.
Variable pooler : string -> tensor Z -> tensor Z -> tensor Z -> result ftensor.

Record t : Type := {
  temp : num;
  bert : pretrained;
  contra_loss : UnsupContrastiveLoss.t
}.

Definition set_contra_loss (c : UnsupContrastiveLoss.t) (self : t) : t :=
  {| temp := temp self; bert := bert self; contra_loss := c |}.

Definition __init__ (pretraind_model : string) (temp : num) : result t :=
  _ <- Module__init__ ;;
  let bert := AutoTokenizer_from_pretrained pretraind_model in
  contra_loss <- UnsupContrastiveLoss.__init__ temp ;;
  Ok {| temp := temp; bert := bert; contra_loss := contra_loss |}.

Definition forward (input_ids attention_mask : tensor Z)
    (token_type_ids : option (tensor Z)) : method t (ftensor * ftensor) :=
  if negb (ndim input_ids =? 3) then throw NotImplementedError else
  match shape input_ids with
  | [batch_size; _; hidden_dim] =>
      flat_input_ids <-
        call (reshape input_ids [batch_size * 2; hidden_dim]) ;;
      flat_attention_mask <-
        call (reshape attention_mask [batch_size * 2; hidden_dim]) ;;
      flat_token_type_ids <-
        match token_type_ids with
        | Some ids =>
            r <- call (reshape ids [batch_size * 2; hidden_dim]) ;;
            ret (Some r)
        | None => ret None
        end ;;
      bert <- getattr bert ;;
      token_types <- call (load_local flat_token_type_ids) ;;
      out <- call (pooler_output pooler bert flat_input_ids
                                 flat_attention_mask token_types) ;;
      out <- call (reshape out [batch_size; 2; hidden_dim]) ;;
      first <- call (select1 out 0) ;;
      last <- call (select1 out 1) ;;
      on_attr contra_loss set_contra_loss
              (UnsupContrastiveLoss.forward first last)
  | _ => throw ValueError
  end.

End Class.
End UnsupSimCSE.

Module SupSimCSE.
Section Class.
Context {SC : Scalar}.
Variable pooler : string -> tensor Z -> tensor Z -> tensor Z -> result ftensor.

Record t : Type := {
  temp : num;
  bert : pretrained;
  contra_loss : SupContrastiveLoss.t
}.

Definition set_contra_loss (c : SupContrastiveLoss.t) (self : t) : t :=
  {| temp := temp self; bert := bert self; contra_loss := c |}.

Definition __init__ (pretraind_model : string) (temp : num) : result t :=
  _ <- Module__init__ ;;
  let bert := AutoTokenizer_from_pretrained pretraind_model in
  contra_loss <- SupContrastiveLoss.__init__ temp ;;
  Ok {| temp := temp; bert := bert; contra_loss := contra_loss |}.

Definition forward (input_ids attention_mask : tensor Z)
    (token_type_ids : option (tensor Z)) : method t (ftensor * ftensor) :=
  if negb (ndim input_ids =? 3) then throw NotImplementedError else
  match shape input_ids with
  | [batch_size; _; hidden_dim] =>
      flat_input_ids <-
        call (reshape input_ids [batch_size * 3; hidden_dim]) ;;
      flat_attention_mask <-
        call (reshape attention_mask [batch_size * 3; hidden_dim]) ;;
      flat_token_type_ids <-
        match token_type_ids with
        | Some ids =>
            r <- call (reshape ids [batch_size * 3; hidden_dim]) ;;
            ret (Some r)
        | None => ret None
        end ;;
      bert <- getattr bert ;;
      token_types <- call (load_local flat_token_type_ids) ;;
      out <- call (pooler_output pooler bert flat_input_ids
                                 flat_attention_mask token_types) ;;
      out <- call (reshape out [batch_size; 3; hidden_dim]) ;;
      premise <- call (select1 out 0) ;;
      entail <- call (select1 out 1) ;;
      contra <- call (select1 out 2) ;;
      on_attr contra_loss set_contra_loss
              (SupContrastiveLoss.forward premise entail contra)
  | _ => throw ValueError
  end.

End Class.
End SupSimCSE.

(** ** Self-guided contrastive learning *)

Module UniformSampler.
Section Class.
Context {SC : Scalar}.

Record t : Type := mk { }.

Definition forward (hidden_states : ftensor) : method t ftensor :=
  if negb (ndim hidden_states =? 3) then throw NotImplementedError else
  call (mean_dim hidden_states 1).

End Class.
End UniformSampler.

Module WeightedSampler.
Section Class.
Context {SC : Scalar}.

Record t : Type := { weights : ftensor }.

Definition __init__ (weights : ftensor) : result t :=
  _ <- Module__init__ ;;
  Ok {| weights := weights |}.

(** The argument [weights0] is [None] unless the caller passes a tensor. *)
Definition forward (hidden_states : ftensor) (weights0 : option ftensor)
    : method t ftensor :=
  w <- match weights0 with
       | Some _ => self_weights <- getattr weights ;; ret (Some self_weights)
       | None => ret weights0
       end ;;
  if negb (ndim hidden_states =? 3) then throw NotImplementedError else
  match shape hidden_states with
  | [batch_size; layer_num; hidden_dim] =>
      match w with
      | None => throw TypeError
      | Some w =>
          n <- call (len w) ;;
          if negb (layer_num =? n) then throw NotImplementedError else
          w <- call (tdiv w (sum_all w)) ;;
          w0 <- call (unsqueeze w 0) ;;
          w01 <- call (unsqueeze w0 (-1)) ;;
          p <- call (tmul hidden_states w01) ;;
          ret (sum_all p)
      end
  | _ => throw ValueError
  end.

End Class.
End WeightedSampler.

Module SGLossOpt2.
Section Class.
Context {SC : Scalar}.

Record t : Type := { temp : num }.

Definition __init__ (temp : num) : result t :=
  _ <- Module__init__ ;;
  Ok {| temp := temp |}.

Definition forward (cls hidden : ftensor) : method t (ftensor * ftensor) :=
  x1 <- call (unsqueeze cls 1) ;;
  x2 <- call (unsqueeze hidden 0) ;;
  c <- call (cosine_similarity x1 x2) ;;
  temp <- getattr temp ;;
  let sim := div_scalar c temp in
  n <- call (shape0 sim) ;;
  let label := arange n in
  loss <- call (cross_entropy sim label) ;;
  ret (loss, sim).

End Class.
End SGLossOpt2.

Module SGLossOpt3.
Section Class.
Context {SC : Scalar}.

Record t : Type := { temp : num }.

Definition __init__ (temp : num) : result t :=
  _ <- Module__init__ ;;
  Ok {| temp := temp |}.

(** One pass of the loop body for the pair [(i, k)]. *)
Definition loss_term (sim_ci_hik sim_after_mask : ftensor) (ik : nat * nat)
    : result ftensor :=
  let (i, k) := ik in
  a <- select2 sim_ci_hik i k ;;
  b <- select2 sim_ci_hik i k ;;
  row <- select0 sim_after_mask i ;;
  den <- tadd b (sum_all row) ;;
  tadd (tneg (tlog a)) (tlog den).

Definition forward (cls hidden : ftensor) : method t ftensor :=
  if negb (ndim hidden =? 3) then throw NotImplementedError else
  match shape hidden with
  | [batch_size; layer_num; hidden_dim] =>
      cls1 <- call (unsqueeze cls 1) ;;
      c <- call (cosine_similarity cls1 hidden) ;;
      let sim_ci_hik := texp c in
      rows <- call (iterate cls) ;;
      sims <- call (mapM (fun c_i => cosine_similarity c_i hidden) rows) ;;
      st <- call (stack sims) ;;
      let sim_ci_hmn := texp st in
      off_diag <- call (tsub (ones batch_size batch_size) (eye batch_size)) ;;
      hmn_mask <- call (repeat_cols off_diag layer_num) ;;
      sim_ci_hmn <-
        call (reshape sim_ci_hmn [batch_size; batch_size * layer_num]) ;;
      sim_after_mask <- call (tmul sim_ci_hmn hmn_mask) ;;
      loss_list <-
        call (mapM (loss_term sim_ci_hik sim_after_mask)
                   (list_prod (seq 0 batch_size) (seq 0 layer_num))) ;;
      st <- call (stack loss_list) ;;
      ret (mean_all st)
  | _ => throw ValueError
  end.

End Class.
End SGLossOpt3.

Module SGLossOpt3Simplified.
Section Class.
Context {SC : Scalar}.

Record t : Type := { temp : num }.

Definition __init__ (temp : num) : result t :=
  _ <- Module__init__ ;;
  Ok {| temp := temp |}.

Definition forward (cls hidden : ftensor) : method t ftensor :=
  if negb (ndim hidden =? 3) then throw NotImplementedError else
  match shape hidden with
  | [batch_size; layer_num; hidden_dim] =>
      cls1 <- call (unsqueeze cls 1) ;;
      c <- call (cosine_similarity cls1 hidden) ;;
      let sim_ci_hik := texp c in
      rows <- call (iterate cls) ;;
      sims <- call (mapM (fun c_i => cosine_similarity c_i hidden) rows) ;;
      st <- call (stack sims) ;;
      let sim_ci_hmn := texp st in
      let sim_ci_hik := flatten sim_ci_hik in
      let loss1 := tneg (sum_all (tlog sim_ci_hik)) in
      sum_over_mn <- call (sum_dims12 sim_ci_hmn) ;;
      let loss2 := sum_all (tlog sum_over_mn) in
      call (tadd loss1 loss2)
  | _ => throw ValueError
  end.

End Class.
End SGLossOpt3Simplified.

(** The class statement of [RegHiddenLoss] is the one that fails; this is
    the [forward] its body defines. *)
Module RegHiddenLoss.
Section Class.
Context {SC : Scalar}.

Record t : Type := mk { }.

(** [(h1 - h2).reshape(-1).pow(2).sum()]. *)
Definition sq_dist (h : ftensor * ftensor) : result ftensor :=
  d <- tsub (fst h) (snd h) ;;
  Ok (sum_all (tsquare (flatten d))).

Definition forward (hidden1 hidden2 : list ftensor) : method t ftensor :=
  param_list <- call (mapM sq_dist (combine hidden1 hidden2)) ;;
  st <- call (stack param_list) ;;
  ret (tsqrt (sum_all st)).

End Class.
End RegHiddenLoss.

Module RegLoss.
Section Class.
Context {SC : Scalar}.

Record t : Type := mk { }.

(** [(part1 - part2).reshape(-1).pow(2).sum()]. *)
Definition sq_dist (p : ftensor * ftensor) : result ftensor :=
  d <- tsub (fst p) (snd p) ;;
  Ok (sum_all (tsquare (flatten d))).

(** [param1] and [param2] are iterables of tensors; they are given by the
    sequences they yield. *)
Definition forward (param1 param2 : list ftensor) : method t ftensor :=
  param_list <- call (mapM sq_dist (combine param1 param2)) ;;
  st <- call (stack param_list) ;;
  ret (tsqrt (sum_all st)).

End Class.
End RegLoss.

Module TotalLoss.
Section Class.
Context {SC : Scalar}.

(** The loss and the sampler are any of the modules above. *)
Inductive sgloss_module : Type :=
| Opt2 (m : SGLossOpt2.t)
| Opt3 (m : SGLossOpt3.t)
| Opt3Simplified (m : SGLossOpt3Simplified.t).

Inductive sampler_module : Type :=
| Uniform (m : UniformSampler.t)
| Weighted (m : WeightedSampler.t).

Record t : Type := {
  sgloss : sgloss_module;
  sampler : sampler_module;
  regloss : RegLoss.t;
  lamb : num
}.

Definition set_sgloss (v : sgloss_module) (self : t) : t :=
  {| sgloss := v; sampler := sampler self; regloss := regloss self;
     lamb := lamb self |}.
Definition set_sampler (v : sampler_module) (self : t) : t :=
  {| sgloss := sgloss self; sampler := v; regloss := regloss self;
     lamb := lamb self |}.
Definition set_regloss (v : RegLoss.t) (self : t) : t :=
  {| sgloss := sgloss self; sampler := sampler self; regloss := v;
     lamb := lamb self |}.

(** What a loss module returns: a tensor, or the pair [(loss, sim)]. *)
Inductive pyval : Type :=
| VTensor (x : ftensor)
| VTuple (a b : ftensor).

(** [a + b]: defined on two tensors; a tuple and a tensor do not add. *)
Definition py_add (a b : pyval) : result pyval :=
  match a, b with
  | VTensor x, VTensor y => r <- tadd x y ;; Ok (VTensor r)
  | _, _ => Raise TypeError
  end.

(** [isinstance(self.sgloss, (SGLossOpt3, SGLossOpt3Simplified))]. *)
Definition is_opt3 (m : sgloss_module) : bool :=
  match m with
  | Opt2 _ => false
  | Opt3 _ | Opt3Simplified _ => true
  end.

(** [self.sgloss(cls, hiddens)] and [self.sampler(hiddens)]: the call runs
    the [forward] of the class of the stored module. *)
Definition sgloss_call (cls hiddens : ftensor) : method sgloss_module pyval :=
  fun m =>
    match m with
    | Opt2 m =>
        let (r, m') := SGLossOpt2.forward cls hiddens m in
        ('(loss, sim) <- r ;; Ok (VTuple loss sim), Opt2 m')
    | Opt3 m =>
        let (r, m') := SGLossOpt3.forward cls hiddens m in
        (x <- r ;; Ok (VTensor x), Opt3 m')
    | Opt3Simplified m =>
        let (r, m') := SGLossOpt3Simplified.forward cls hiddens m in
        (x <- r ;; Ok (VTensor x), Opt3Simplified m')
    end.

Definition sampler_call (hiddens : ftensor) : method sampler_module ftensor :=
  fun m =>
    match m with
    | Uniform m =>
        let (r, m') := UniformSampler.forward hiddens m in (r, Uniform m')
    | Weighted m =>
        let (r, m') := WeightedSampler.forward hiddens None m in
        (r, Weighted m')
    end.

Definition forward (cls hiddens : ftensor) (p1 p2 : list ftensor)
    : method t pyval :=
  sg <- getattr sgloss ;;
  hiddens <- (if negb (is_opt3 sg)
              then on_attr sampler set_sampler (sampler_call hiddens)
              else ret hiddens) ;;
  a <- on_attr sgloss set_sgloss (sgloss_call cls hiddens) ;;
  lamb <- getattr lamb ;;
  r <- on_attr regloss set_regloss (RegLoss.forward p1 p2) ;;
  call (py_add a (VTensor (scalar_mul lamb r))).

End Class.
End TotalLoss.

Module SelfGuidedContraModel.
Section Class.
Context {SC : Scalar}.

(** The layers of [self.proj]. *)
Inductive layer : Set :=
| Linear (in_features out_features : nat)
| GELU.

(** Which encoder parameters had [requires_grad_(False)] applied. *)
Inductive frozen : Set :=
| FrozenNone
| FrozenLayer0
| FrozenAll.

Record t : Type := {
  bertF : pretrained;
  bertT : pretrained;
  proj : list layer;
  loss_fn : TotalLoss.t;
  bertF_frozen : frozen;
  bertT_frozen : frozen
}.

Definition set_bertT_frozen (v : frozen) (self : t) : t :=
  {| bertF := bertF self; bertT := bertT self; proj := proj self;
     loss_fn := loss_fn self; bertF_frozen := bertF_frozen self;
     bertT_frozen := v |}.
Definition set_bertF_frozen (v : frozen) (self : t) : t :=
  {| bertF := bertF self; bertT := bertT self; proj := proj self;
     loss_fn := loss_fn self; bertF_frozen := v;
     bertT_frozen := bertT_frozen self |}.

Definition _freeze_param : method t unit :=
  _ <- setattr set_bertT_frozen FrozenLayer0 ;;
  setattr set_bertF_frozen FrozenAll.

(** The first statement is [super.__init__()], a call of the unbound
    initialiser of the builtin [super] with no argument at all. *)
Definition __init__ (model_name : string) (total_loss : TotalLoss.t)
    (hidden : nat) : result t :=
  _ <- super__init__ [] ;;
  let bertF := AutoModel_from_pretrained model_name in
  let bertT := AutoModel_from_pretrained model_name in
  let proj := [Linear hidden 4096; GELU; Linear 4096 hidden; GELU] in
  let self := {| bertF := bertF; bertT := bertT; proj := proj;
                 loss_fn := total_loss; bertF_frozen := FrozenNone;
                 bertT_frozen := FrozenNone |} in
  match _freeze_param self with
  | (Ok _, self') => Ok self'
  | (Raise e, _) => Raise e
  end.

End Class.
End SelfGuidedContraModel.

(** ** The module body

    Importing the file runs its class statements in order.  Each one
    evaluates its base-class expression, an attribute of the package [nn],
    and then binds the class name in the module's globals.  The package is
    given by the names it exports; the imports at the head of the file are
    taken to succeed. *)

Record class_stmt : Set := ClassDef {
  class_name : string;
  base_attr : string
}.

Definition myModule : list class_stmt := [
  ClassDef "UnsupContrastiveLoss" "Module";
  ClassDef "SupContrastiveLoss" "Module";
  ClassDef "UnsupSimCSE" "Module";
  ClassDef "SupSimCSE" "Module";
  ClassDef "UniformSampler" "Module";
  ClassDef "WeightedSampler" "Module";
  ClassDef "SGLossOpt2" "Module";
  ClassDef "SGLossOpt3" "Module";
  ClassDef "SGLossOpt3Simplified" "Module";
  ClassDef "RegHiddenLoss" "Moduke";
  ClassDef "RegLoss" "Module";
  ClassDef "TotalLoss" "Module";
  ClassDef "SelfGuidedContraModel" "Module"
].

Definition exports (nn : list string) (attr : string) : bool :=
  existsb (String.eqb attr) nn.

(** [nn.attr]. *)
Definition nn_getattr (nn : list string) (attr : string) : result string :=
  if exports nn attr then Ok attr else Raise AttributeError.

Definition bind_global (name : string) (globals : list string) : list string :=
  name :: globals.

Definition exec_class (nn : list string) (c : class_stmt)
    : method (list string) unit :=
  _ <- call (nn_getattr nn (base_attr c)) ;;
  fun globals => (Ok tt, bind_global (class_name c) globals).

Fixpoint exec_body (nn : list string) (body : list class_stmt)
    : method (list string) unit :=
  match body with
  | [] => ret tt
  | c :: rest => _ <- exec_class nn c ;; exec_body nn rest
  end.

(** [import myModule], from empty globals: the outcome and the classes
    bound when execution stopped. *)
Definition import_myModule (nn : list string) : result unit * list string :=
  exec_body nn myModule [].

(** ** A symbolic instance of the scalars

    Scalars as the expressions that denote them: running a model at this
    instance shows which kernels are applied to which inputs. *)

#[local] Unset Elimination Schemes.

Inductive sym : Type :=
| SLit (z : Z)
| SAdd (a b : sym)
| SSub (a b : sym)
| SMul (a b : sym)
| SDiv (a b : sym)
| SNeg (a : sym)
| SExp (a : sym)
| SLog (a : sym)
| SSqrt (a : sym)
| SSum (l : list sym)
| SCos (a b : list sym).

#[local] Set Elimination Schemes.

Definition symScalar : Scalar := {|
  num := sym;
  fzero := SLit 0;
  fone := SLit 1;
  fadd := SAdd;
  fsub := SSub;
  fmul := SMul;
  fdiv := SDiv;
  fneg := SNeg;
  fexp := SExp;
  flog := SLog;
  fsqrt := SSqrt;
  fsum := SSum;
  of_nat := fun n => SLit (Z.of_nat n);
  cosine_vec := SCos
|}.

(** Sample inputs: two batches of two vectors, hidden states of two
    sentences over two layers, a token batch with two views per sentence,
    and a flat token list. *)
Definition lit (l : list Z) : list sym := map SLit l.

Definition batch_a : tensor sym := mkTensor [2; 3] (lit [1; 2; 3; 4; 5; 6]%Z).
Definition batch_b : tensor sym :=
  mkTensor [2; 3] (lit [7; 8; 9; 10; 11; 12]%Z).
Definition layers_a : tensor sym :=
  mkTensor [2; 2; 3] (lit [1; 2; 3; 4; 5; 6; 7; 8; 9; 10; 11; 12]%Z).
Definition layer_weights : tensor sym := mkTensor [2] (lit [20; 30]%Z).
Definition other_weights : tensor sym := mkTensor [2] (lit [1; 1]%Z).

Definition tokens : tensor Z :=
  mkTensor [1; 2; 3] [101; 7; 102; 101; 7; 102]%Z.
Definition mask : tensor Z := mkTensor [1; 2; 3] [1; 1; 1; 1; 1; 1]%Z.
Definition flat_tokens : tensor Z := mkTensor [2; 3] [101; 7; 102; 101; 7; 102]%Z.

(** Module instances at the symbolic scalars. *)
Definition sample_loss : @UnsupContrastiveLoss.t symScalar :=
  UnsupContrastiveLoss.Build_t (SC := symScalar) (SLit 20).
Definition sample_sup_loss : @SupContrastiveLoss.t symScalar :=
  SupContrastiveLoss.Build_t (SC := symScalar) (SLit 20).
Definition sample_unsup : @UnsupSimCSE.t symScalar :=
  UnsupSimCSE.Build_t (SC := symScalar) (SLit 20)
    (Tokenizer "bert-base-uncased") sample_loss.
Definition sample_sup : @SupSimCSE.t symScalar :=
  SupSimCSE.Build_t (SC := symScalar) (SLit 20)
    (Tokenizer "bert-base-uncased") sample_sup_loss.
Definition sample_weighted : @WeightedSampler.t symScalar :=
  WeightedSampler.Build_t (SC := symScalar) layer_weights.
Definition sample_opt3 : @SGLossOpt3.t symScalar :=
  SGLossOpt3.Build_t (SC := symScalar) (SLit 20).
Definition sample_opt3s : @SGLossOpt3Simplified.t symScalar :=
  SGLossOpt3Simplified.Build_t (SC := symScalar) (SLit 20).

(** The names of [torch.nn] the file refers to. *)
Definition nn_names : list string := ["Module"; "Sequential"; "Linear"; "GELU"].

(** A stand-in for the pretrained encoder: one constant pooled vector per
    input row. *)
Definition toy_pooler (name : string) (ids mask types : tensor Z)
    : result (tensor sym) :=
  match shape ids with
  | [n; h] => Ok (mkTensor [n; h] (repeat (SLit 1) (n * h)))
  | _ => Raise RuntimeError
  end.

(** Two more stand-ins: an encoder whose pooled vectors have four entries
    whatever the token length, and a wrapper holding an encoder. *)
Definition wide_pooler (name : string) (ids mask types : tensor Z)
    : result (tensor sym) :=
  match shape ids with
  | [n; h] => Ok (mkTensor [n; 4] (repeat (SLit 1) (n * 4)))
  | _ => Raise RuntimeError
  end.

Definition sample_unsup_encoder : @UnsupSimCSE.t symScalar :=
  UnsupSimCSE.Build_t (SC := symScalar) (SLit 20)
    (Encoder "bert-base-uncased") sample_loss.

Definition three_views : tensor Z :=
  mkTensor [1; 3; 2] [101; 102; 101; 102; 101; 102]%Z.

(** ** Vocabulary of the statements *)

(** All blocks of a list of blocks have length [k]. *)
Definition uniform {A : Type} (k : nat) (ls : list (list A)) : Prop :=
  Forall (fun b => length b = k) ls.

(** A method is stateless when the attribute record it hands back is the
    one it was given, and repeatable when running it again on the record it
    handed back gives the same outcome. *)
Definition stateless {S A : Type} (m : method S A) : Prop :=
  forall s, snd (m s) = s.

Definition repeatable {S A : Type} (m : method S A) : Prop :=
  forall s, fst (m (snd (m s))) = fst (m s).

(** The matrix of the cosine of every row of [x] with every row of [y],
    both [B]-by-[H] in row-major order, divided by [temp]. *)
Definition sim_matrix {SC : Scalar} (temp : num) (B H : nat) (x y : list num)
    : ftensor :=
  mkTensor [B; B]
    (flat_map (fun r => map (fun c => fdiv (cosine_vec r c) temp) (chunk H B y))
              (chunk H B x)).

(** The squared difference of two scalars. *)
Definition sq_diff {SC : Scalar} (a b : num) : num :=
  fmul (fsub a b) (fsub a b).

(** * Properties *)

(** ** Blocks of a row-major storage *)

Section Blocks.
Context {A : Type}.

Lemma chunk_length (k n : nat) : forall l : list A, length (chunk k n l) = n.
Proof.
  induction n as [|n IH]; intro l; simpl; [reflexivity|].
  now rewrite IH.
Qed.

Lemma chunk_uniform (k n : nat) :
  forall l : list A, n * k <= length l -> uniform k (chunk k n l).
Proof.
  induction n as [|n IH]; intros l Hl; simpl.
  - constructor.
  - simpl in Hl. constructor.
    + rewrite length_firstn. lia.
    + apply IH. rewrite length_skipn. lia.
Qed.

Lemma concat_chunk (k n : nat) :
  forall l : list A, length l = n * k -> concat (chunk k n l) = l.
Proof.
  induction n as [|n IH]; intros l Hl; simpl in *.
  - now apply length_zero_iff_nil in Hl.
  - rewrite IH.
    + apply firstn_skipn.
    + rewrite length_skipn. lia.
Qed.

Lemma chunk_concat (k : nat) (ls : list (list A)) :
  uniform k ls -> chunk k (length ls) (concat ls) = ls.
Proof.
  induction 1 as [|b ls Hb _ IH]; simpl; [reflexivity|].
  rewrite firstn_app, skipn_app.
  replace (k - length b) with 0 by lia.
  rewrite (firstn_all2 b), (skipn_all2 b) by lia.
  simpl. now rewrite app_nil_r, IH.
Qed.

Lemma concat_uniform_length (k : nat) (ls : list (list A)) :
  uniform k ls -> length (concat ls) = length ls * k.
Proof.
  induction 1 as [|b ls Hb _ IH]; simpl; [reflexivity|].
  rewrite length_app. lia.
Qed.

(** Block [i] of a concatenation of blocks of length [k]. *)
Lemma block_of_concat (k : nat) (ls : list (list A)) :
  uniform k ls ->
  forall i, i < length ls ->
  firstn k (skipn (i * k) (concat ls)) = nth i ls [].
Proof.
  induction 1 as [|b ls Hb _ IH]; intros i Hi; simpl in Hi; [lia|].
  destruct i as [|i]; simpl.
  - rewrite firstn_app. replace (k - length b) with 0 by lia.
    rewrite (firstn_all2 b) by lia. simpl. apply app_nil_r.
  - rewrite skipn_app.
    replace (skipn (k + i * k) b) with (@nil A)
      by (symmetry; apply skipn_all2; lia).
    replace (k + i * k - length b) with (i * k) by lia.
    simpl. apply IH. lia.
Qed.

Lemma singleton_at (l : list A) (d : A) :
  forall j, j < length l -> firstn 1 (skipn j l) = [nth j l d].
Proof.
  induction l as [|a l IH]; intros j Hj; simpl in Hj; [lia|].
  destruct j as [|j]; simpl; [reflexivity|].
  apply IH. lia.
Qed.

End Blocks.

Lemma uniform_map_map {A B C : Type} (f : A -> B -> C) (rows : list A)
    (cols : list B) :
  uniform (length cols) (map (fun r => map (f r) cols) rows).
Proof.
  unfold uniform. apply Forall_forall. intros b Hb.
  apply in_map_iff in Hb. destruct Hb as (r & <- & _). apply length_map.
Qed.

Lemma uniform_repeat {A : Type} (k m : nat) (rows : list (list A)) :
  uniform k rows -> uniform k (flat_map (fun r => repeat r m) rows).
Proof.
  unfold uniform. intro H. apply Forall_forall. intros b Hb.
  apply in_flat_map in Hb. destruct Hb as (r & Hr & Hb).
  apply repeat_spec in Hb. subst b.
  rewrite Forall_forall in H. now apply H.
Qed.

Lemma uniform_concat_repeat {A : Type} (k n : nat) (rows : list (list A)) :
  uniform k rows -> uniform k (concat (repeat rows n)).
Proof.
  unfold uniform. intro H. induction n as [|n IH]; simpl.
  - constructor.
  - apply Forall_app. split; assumption.
Qed.

Lemma map2_app {A B C : Type} (f : A -> B -> C) (l1 l2 : list A)
    (m1 m2 : list B) :
  length l1 = length m1 ->
  map2 f (l1 ++ l2) (m1 ++ m2) = map2 f l1 m1 ++ map2 f l2 m2.
Proof.
  unfold map2. revert m1. induction l1 as [|a l1 IH]; intros [|b m1] H;
    simpl in *; try discriminate; [reflexivity|].
  f_equal. apply IH. now injection H.
Qed.

Lemma map2_repeat {A B C : Type} (f : A -> B -> C) (a : A) (m : list B) :
  map2 f (repeat a (length m)) m = map (f a) m.
Proof.
  unfold map2. induction m as [|b m IH]; simpl; [reflexivity|].
  now rewrite IH.
Qed.

(** Every row of [rows] against every column of [cols]: the pattern two
    operands take once they are broadcast against each other. *)
Lemma map2_outer {A B C : Type} (f : A -> B -> C) (cols : list B)
    (rows : list A) (n m : nat) :
  length rows = n -> length cols = m ->
  map2 f (flat_map (fun r => repeat r m) rows) (concat (repeat cols n))
  = flat_map (fun r => map (f r) cols) rows.
Proof.
  intros <- <-.
  induction rows as [|r rows IH]; simpl; [reflexivity|].
  rewrite map2_app by apply repeat_length.
  now rewrite map2_repeat, IH.
Qed.

(** ** Methods that leave their receiver alone *)

Section Frame.
Context {S : Type}.

Lemma stateless_ret {A} (a : A) : stateless (ret a : method S A).
Proof. intro s. reflexivity. Qed.

Lemma stateless_call {A} (r : result A) : stateless (call r : method S A).
Proof. intro s. reflexivity. Qed.

Lemma stateless_throw {A} (e : exn) : stateless (throw e : method S A).
Proof. intro s. reflexivity. Qed.

Lemma stateless_getattr {A} (f : S -> A) : stateless (getattr f).
Proof. intro s. reflexivity. Qed.

Lemma stateless_bind {A B} (m : method S A) (k : A -> method S B) :
  stateless m -> (forall a, stateless (k a)) -> stateless (bind m k).
Proof.
  intros Hm Hk s. simpl. specialize (Hm s).
  destruct (m s) as [[a|e] s']; simpl in *; subst s'.
  - apply Hk.
  - reflexivity.
Qed.

(** A call on a sub-module stored in an attribute: writing back what was
    read changes nothing. *)
Lemma stateless_on_attr {T A} (f : S -> T) (upd : T -> S -> S)
    (m : method T A) :
  (forall s, upd (f s) s = s) -> stateless m -> stateless (on_attr f upd m).
Proof.
  intros Hupd Hm s. unfold on_attr. specialize (Hm (f s)).
  destruct (m (f s)) as [r t']; simpl in *. subst t'. apply Hupd.
Qed.

Lemma stateless_repeatable {A} (m : method S A) : stateless m -> repeatable m.
Proof. intros Hm s. now rewrite Hm. Qed.

End Frame.

Ltac frame :=
  repeat match goal with
  | |- stateless (bind _ _) => apply stateless_bind; [|intro]
  | |- stateless (ret _) => apply stateless_ret
  | |- stateless (call _) => apply stateless_call
  | |- stateless (throw _) => apply stateless_throw
  | |- stateless (getattr _) => apply stateless_getattr
  | |- stateless (if ?b then _ else _) => destruct b
  | |- stateless (match ?x with _ => _ end) => destruct x
  end.

Section FrameOfForward.
Context {SC : Scalar}.

Lemma UnsupContrastiveLoss_forward_stateless (first second : ftensor) :
  stateless (UnsupContrastiveLoss.forward first second).
Proof. unfold UnsupContrastiveLoss.forward. frame. Qed.

Lemma SupContrastiveLoss_forward_stateless (premise entail contra : ftensor) :
  stateless (SupContrastiveLoss.forward premise entail contra).
Proof. unfold SupContrastiveLoss.forward. frame. Qed.

Lemma UniformSampler_forward_stateless (hidden_states : ftensor) :
  stateless (UniformSampler.forward hidden_states).
Proof. unfold UniformSampler.forward. frame. Qed.

Lemma WeightedSampler_forward_stateless (hidden_states : ftensor)
    (weights : option ftensor) :
  stateless (WeightedSampler.forward hidden_states weights).
Proof. unfold WeightedSampler.forward. frame. Qed.

Lemma SGLossOpt2_forward_stateless (cls hidden : ftensor) :
  stateless (SGLossOpt2.forward cls hidden).
Proof. unfold SGLossOpt2.forward. frame. Qed.

Lemma SGLossOpt3_forward_stateless (cls hidden : ftensor) :
  stateless (SGLossOpt3.forward cls hidden).
Proof. unfold SGLossOpt3.forward. frame. Qed.

Lemma SGLossOpt3Simplified_forward_stateless (cls hidden : ftensor) :
  stateless (SGLossOpt3Simplified.forward cls hidden).
Proof. unfold SGLossOpt3Simplified.forward. frame. Qed.

Lemma RegLoss_forward_stateless (param1 param2 : list ftensor) :
  stateless (RegLoss.forward param1 param2).
Proof. unfold RegLoss.forward. frame. Qed.

Lemma sgloss_call_stateless (cls hiddens : ftensor) :
  stateless (TotalLoss.sgloss_call cls hiddens).
Proof.
  intros [m|m|m]; unfold TotalLoss.sgloss_call.
  - pose proof (SGLossOpt2_forward_stateless cls hiddens m) as H.
    destruct (SGLossOpt2.forward cls hiddens m) as [r m']; simpl in *.
    now subst m'.
  - pose proof (SGLossOpt3_forward_stateless cls hiddens m) as H.
    destruct (SGLossOpt3.forward cls hiddens m) as [r m']; simpl in *.
    now subst m'.
  - pose proof (SGLossOpt3Simplified_forward_stateless cls hiddens m) as H.
    destruct (SGLossOpt3Simplified.forward cls hiddens m) as [r m'];
      simpl in *.
    now subst m'.
Qed.

Lemma sampler_call_stateless (hiddens : ftensor) :
  stateless (TotalLoss.sampler_call hiddens).
Proof.
  intros [m|m]; unfold TotalLoss.sampler_call.
  - pose proof (UniformSampler_forward_stateless hiddens m) as H.
    destruct (UniformSampler.forward hiddens m) as [r m']; simpl in *.
    now subst m'.
  - pose proof (WeightedSampler_forward_stateless hiddens None m) as H.
    destruct (WeightedSampler.forward hiddens None m) as [r m']; simpl in *.
    now subst m'.
Qed.

Lemma TotalLoss_forward_stateless (cls hiddens : ftensor)
    (p1 p2 : list ftensor) :
  stateless (TotalLoss.forward cls hiddens p1 p2).
Proof.
  unfold TotalLoss.forward. frame;
    try (apply stateless_on_attr; [now intros []|]);
    auto using sgloss_call_stateless, sampler_call_stateless,
               RegLoss_forward_stateless.
Qed.

End FrameOfForward.

(** ** The similarity matrix of two batches *)

Section Expand.
Context {A : Type}.

Lemma flat_map_uniform (k : nat) (f g : list A -> list A) (ls : list (list A)) :
  uniform k ls -> (forall b, length b = k -> f b = g b) ->
  flat_map f ls = flat_map g ls.
Proof.
  intros Hu Hfg. induction Hu as [|b ls Hb _ IH]; simpl; [reflexivity|].
  now rewrite IH, Hfg.
Qed.

Lemma flat_map_id (ls : list (list A)) : flat_map (fun b => b) ls = concat ls.
Proof. rewrite flat_map_concat_map. now rewrite map_id. Qed.

Lemma flat_map_concat (B : Type) (g : B -> list (list A)) (l : list B) :
  flat_map (fun c => concat (g c)) l = concat (flat_map g l).
Proof.
  induction l as [|c l IH]; simpl; [reflexivity|].
  now rewrite concat_app, IH.
Qed.

Lemma concat_repeat_concat (ls : list (list A)) (n : nat) :
  concat (repeat (concat ls) n) = concat (concat (repeat ls n)).
Proof.
  induction n as [|n IH]; simpl; [reflexivity|].
  now rewrite concat_app, IH.
Qed.

(** Expanding to the shape a tensor already has changes nothing. *)
Lemma expand_data_id (s : list nat) :
  forall d : list A, length d = prod s -> expand_data s s d = d.
Proof.
  induction s as [|n s IH]; intros d Hd; simpl; [reflexivity|].
  rewrite Nat.eqb_refl.
  rewrite (flat_map_uniform (k := prod s) _ (fun b => b)).
  - rewrite flat_map_id. apply concat_chunk. simpl in Hd. lia.
  - apply chunk_uniform. simpl in Hd. lia.
  - exact IH.
Qed.

(** A leading dimension of size one is repeated. *)
Lemma expand_data_one (s t : list nat) (m : nat) (d : list A) :
  length d = prod s ->
  expand_data (1 :: s) (m :: t) d = concat (repeat (expand_data s t d) m).
Proof.
  intro Hd. simpl. destruct m as [|[|m]]; simpl; try reflexivity.
  now rewrite firstn_all2 by lia.
Qed.

Lemma expand_data_cons (n : nat) (s t : list nat) (d : list A) :
  expand_data (n :: s) (n :: t) d
  = flat_map (expand_data s t) (chunk (prod s) n d).
Proof. simpl. now rewrite Nat.eqb_refl. Qed.

End Expand.

Section SimilarityMatrix.
Context {SC : Scalar}.

Lemma broadcast_outer (B H : nat) :
  broadcast_shapes [B; 1; H] [1; B; H] = Ok [B; B; H].
Proof.
  unfold broadcast_shapes. simpl. rewrite Nat.eqb_refl.
  destruct B as [|[|B]]; reflexivity.
Qed.

Lemma length_rows_repeat {A} (m : nat) (rows : list (list A)) :
  length (flat_map (fun r => repeat r m) rows) = length rows * m.
Proof.
  induction rows as [|r rows IH]; simpl; [reflexivity|].
  now rewrite length_app, repeat_length, IH.
Qed.

Lemma length_concat_repeat {A} (n : nat) (rows : list A) :
  length (concat (repeat rows n)) = n * length rows.
Proof.
  induction n as [|n IH]; simpl; [reflexivity|].
  now rewrite length_app, IH.
Qed.

(** [cos(x.unsqueeze(1), y.unsqueeze(0))]: every row of [x] against every
    row of [y]. *)
Lemma cosine_outer (B H : nat) (x y : list num) :
  length x = B * H -> length y = B * H ->
  cosine_similarity (mkTensor [B; 1; H] x) (mkTensor [1; B; H] y)
  = Ok (mkTensor [B; B]
          (flat_map (fun r => map (cosine_vec r) (chunk H B y)) (chunk H B x))).
Proof.
  intros Hx Hy. unfold cosine_similarity. cbn [shape].
  rewrite broadcast_outer. cbn [bind result_Monad rev app].
  unfold expand, pad_shape. cbn [shape data length Nat.sub repeat app].
  f_equal. f_equal.
  assert (Ux : uniform H (chunk H B x)) by (apply chunk_uniform; lia).
  assert (Uy : uniform H (chunk H B y)) by (apply chunk_uniform; lia).
  assert (Lx : length (chunk H B x) = B) by apply chunk_length.
  assert (Ly : length (chunk H B y) = B) by apply chunk_length.
  replace (prod [B; B]) with (B * B) by (simpl; lia).
  (* the first operand: every row written [B] times in a row *)
  rewrite expand_data_cons.
  replace (prod [1; H]) with H by (simpl; lia).
  rewrite (flat_map_uniform (k := H) _ (fun r => concat (repeat r B)));
    [ | exact Ux
      | intros b Hb; rewrite expand_data_one by (simpl; lia);
        rewrite expand_data_id by (simpl; lia); reflexivity ].
  rewrite (flat_map_concat (fun r => repeat r B)).
  replace (B * B) with (length (flat_map (fun r => repeat r B) (chunk H B x)))
    at 1 by (rewrite length_rows_repeat; lia).
  rewrite chunk_concat by (apply uniform_repeat; exact Ux).
  (* the second operand: the whole matrix written [B] times *)
  rewrite expand_data_one by (simpl; lia).
  rewrite expand_data_id by (simpl; lia).
  rewrite <- (concat_chunk H B y) at 1 by lia.
  rewrite concat_repeat_concat.
  replace (B * B) with (length (concat (repeat (chunk H B y) B)))
    by (rewrite length_concat_repeat; lia).
  rewrite chunk_concat by (apply uniform_concat_repeat; exact Uy).
  now apply map2_outer.
Qed.

End SimilarityMatrix.

Section UnsupForward.
Context {SC : Scalar}.

Lemma labels_in_range (n : nat) : forallb (fun y => y <? n) (seq 0 n) = true.
Proof.
  apply forallb_forall. intros y Hy. apply in_seq in Hy.
  apply Nat.ltb_lt. lia.
Qed.

(** Row [i] of a [B]-by-[H] matrix. *)
Lemma select0_row (B H i : nat) (x : list num) :
  length x = B * H -> i < B ->
  select0 (mkTensor [B; H] x) i = Ok (mkTensor [H] (nth i (chunk H B x) [])).
Proof.
  intros Hx Hi. unfold select0. cbn [shape data].
  apply Nat.ltb_lt in Hi as Hi'. rewrite Hi'.
  replace (prod [H]) with H by (simpl; lia).
  rewrite <- (concat_chunk H B x) at 1 by lia.
  rewrite block_of_concat.
  - reflexivity.
  - apply chunk_uniform. lia.
  - now rewrite chunk_length.
Qed.

(** Entry [(i, j)] of a matrix stored as the rows [map (g r) cols]. *)
Lemma select2_outer {A B : Type} (g : A -> B -> num) (rows : list A)
    (cols : list B) (a : A) (b : B) (i j : nat) :
  i < length rows -> j < length cols ->
  select2 (mkTensor [length rows; length cols]
             (flat_map (fun r => map (g r) cols) rows)) i j
  = Ok (scalar (g (nth i rows a) (nth j cols b))).
Proof.
  intros Hi Hj. unfold select2, select0. cbn [shape bind result_Monad].
  apply Nat.ltb_lt in Hi as Hi'. rewrite Hi'. cbn [shape data].
  apply Nat.ltb_lt in Hj as Hj'. rewrite Hj'.
  replace (prod [length cols]) with (length cols) by (simpl; lia).
  rewrite flat_map_concat_map.
  rewrite block_of_concat;
    [ | apply uniform_map_map | now rewrite length_map ].
  rewrite (nth_indep _ [] (map (g a) cols)) by now rewrite length_map.
  rewrite (map_nth (fun r => map (g r) cols)).
  replace (j * prod []) with j by (simpl; lia).
  cbn [prod fold_right].
  rewrite (singleton_at _ (g (nth i rows a) b)) by now rewrite length_map.
  now rewrite (map_nth (g (nth i rows a))).
Qed.

Lemma map_outer {A B C D : Type} (f : C -> D) (g : A -> B -> C)
    (rows : list A) (cols : list B) :
  map f (flat_map (fun r => map (g r) cols) rows)
  = flat_map (fun r => map (fun c => f (g r c)) cols) rows.
Proof.
  induction rows as [|r rows IH]; simpl; [reflexivity|].
  now rewrite map_app, map_map, IH.
Qed.

Lemma sim_matrix_wf (temp : num) (B H : nat) (x y : list num) :
  wf (sim_matrix temp B H x y).
Proof.
  unfold wf, numel, sim_matrix. cbn [shape data].
  rewrite flat_map_concat_map.
  rewrite (concat_uniform_length (k := length (chunk H B y))).
  - rewrite length_map, !chunk_length. simpl. lia.
  - apply (uniform_map_map (fun r c => fdiv (cosine_vec r c) temp)).
Qed.

Lemma UnsupContrastiveLoss_forward_eval (temp : num) (B H : nat)
    (x y : list num) :
  length x = B * H -> length y = B * H ->
  let sim := sim_matrix temp B H x y in
  UnsupContrastiveLoss.forward (mkTensor [B; H] x) (mkTensor [B; H] y)
    (UnsupContrastiveLoss.Build_t temp)
  = (Ok (scalar (fmean (map2 nll (chunk B B (data sim)) (seq 0 B))), sim),
     UnsupContrastiveLoss.Build_t temp).
Proof.
  intros Hx Hy sim. unfold UnsupContrastiveLoss.forward.
  change (unsqueeze (mkTensor [B; H] x) 1) with (Ok (mkTensor [B; 1; H] x)).
  change (unsqueeze (mkTensor [B; H] y) 0) with (Ok (mkTensor [1; B; H] y)).
  unfold call, getattr. cbn [bind method_Monad ret].
  rewrite (cosine_outer B H x y Hx Hy).
  unfold div_scalar, tmap. cbn [shape data shape0 UnsupContrastiveLoss.temp].
  rewrite map_outer. fold (sim_matrix temp B H x y). fold sim.
  unfold cross_entropy, arange. cbn [shape data].
  unfold sim at 1, sim_matrix. cbn [shape].
  now rewrite Nat.eqb_refl, labels_in_range.
Qed.

End UnsupForward.

(** ** The unsupervised contrastive loss *)

(** C1. For two batches [first] and [second] of shape [batch_size, hidden]
    with [batch_size >= 1], [UnsupContrastiveLoss(temp).forward(first,
    second)] returns a pair [(loss, sim)]: [sim] is a
    [batch_size]-by-[batch_size] matrix whose entry [(i, j)] is the cosine
    similarity of row [i] of [first] and row [j] of [second] divided by
    [temp], and [loss] is the cross-entropy of [sim] against the labels
    [0, 1, ..., batch_size - 1].  It holds for every [temp]. *)
Theorem UnsupContrastiveLoss_forward_spec {SC : Scalar} (temp : num)
    (first second : ftensor) (batch_size hidden : nat) :
  1 <= batch_size ->
  shape first = [batch_size; hidden] -> wf first ->
  shape second = [batch_size; hidden] -> wf second ->
  exists self loss sim,
    UnsupContrastiveLoss.__init__ temp = Ok self /\
    UnsupContrastiveLoss.forward first second self = (Ok (loss, sim), self) /\
    shape sim = [batch_size; batch_size] /\
    wf sim /\
    (forall i j, i < batch_size -> j < batch_size ->
       exists u v,
         select0 first i = Ok u /\
         select0 second j = Ok v /\
         select2 sim i j
         = Ok (scalar (fdiv (cosine_vec (data u) (data v)) temp))) /\
    cross_entropy sim (mkTensor [batch_size] (seq 0 batch_size)) = Ok loss.
Proof.
  destruct first as [s1 x], second as [s2 y]. unfold wf, numel. cbn [shape data].
  intros _ -> Hx -> Hy.
  assert (Lx : length x = batch_size * hidden) by (simpl in Hx; lia).
  assert (Ly : length y = batch_size * hidden) by (simpl in Hy; lia).
  pose proof (UnsupContrastiveLoss_forward_eval temp batch_size hidden x y Lx Ly)
    as Hrun. cbv zeta in Hrun.
  eexists _, _, _. split; [reflexivity|].
  split; [exact Hrun|].
  split; [reflexivity|].
  split; [apply sim_matrix_wf|].
  split.
  - intros i j Hi Hj.
    exists (mkTensor [hidden] (nth i (chunk hidden batch_size x) [])).
    exists (mkTensor [hidden] (nth j (chunk hidden batch_size y) [])).
    split; [now apply select0_row|].
    split; [now apply select0_row|].
    unfold sim_matrix. cbn [data].
    pose proof (@select2_outer SC _ _ (fun r c => fdiv (cosine_vec r c) temp)
                  (chunk hidden batch_size x) (chunk hidden batch_size y)
                  [] [] i j) as Hsel.
    rewrite !chunk_length in Hsel. now apply Hsel.
  - unfold cross_entropy, sim_matrix. cbn [shape data].
    now rewrite Nat.eqb_refl, labels_in_range.
Qed.

Lemma UnsupContrastiveLoss_forward_spec_witness :
  1 <= 2 /\
  shape batch_a = [2; 3] /\ wf batch_a /\
  shape batch_b = [2; 3] /\ wf batch_b /\
  exists self loss sim,
    UnsupContrastiveLoss.__init__ (SC := symScalar) (SLit 20) = Ok self /\
    UnsupContrastiveLoss.forward (SC := symScalar) batch_a batch_b self
    = (Ok (loss, sim), self) /\
    shape sim = [2; 2] /\
    wf sim /\
    (forall i j, i < 2 -> j < 2 ->
       exists u v,
         select0 batch_a i = Ok u /\
         select0 batch_b j = Ok v /\
         select2 sim i j = Ok (scalar (SDiv (SCos (data u) (data v)) (SLit 20)))) /\
    cross_entropy sim (mkTensor [2] (seq 0 2)) = Ok loss.
Proof.
  repeat (split; [first [lia | reflexivity]|]).
  apply (@UnsupContrastiveLoss_forward_spec symScalar (SLit 20) batch_a batch_b
           2 3); first [lia | reflexivity].
Defined.

(** ** The dimensionality checks *)

(** C2. When the leading tensor does not have three dimensions, the shape
    check raises [NotImplementedError] and the receiver is handed back
    untouched: [input_ids] for the two SimCSE wrappers, the hidden states
    for the two samplers and for the two SG-opt losses. *)
Theorem shape_check_raises {SC : Scalar}
    (pooler : string -> tensor Z -> tensor Z -> tensor Z -> result ftensor)
    (input_ids attention_mask : tensor Z) (token_type_ids : option (tensor Z))
    (cls hidden : ftensor) (weights : option ftensor)
    (unsup : UnsupSimCSE.t) (sup : SupSimCSE.t)
    (uniform_sampler : UniformSampler.t) (weighted : WeightedSampler.t)
    (opt3 : SGLossOpt3.t) (opt3s : SGLossOpt3Simplified.t) :
  ndim input_ids <> 3 -> ndim hidden <> 3 ->
  UnsupSimCSE.forward pooler input_ids attention_mask token_type_ids unsup
  = (Raise NotImplementedError, unsup) /\
  SupSimCSE.forward pooler input_ids attention_mask token_type_ids sup
  = (Raise NotImplementedError, sup) /\
  UniformSampler.forward hidden uniform_sampler
  = (Raise NotImplementedError, uniform_sampler) /\
  WeightedSampler.forward hidden weights weighted
  = (Raise NotImplementedError, weighted) /\
  SGLossOpt3.forward cls hidden opt3 = (Raise NotImplementedError, opt3) /\
  SGLossOpt3Simplified.forward cls hidden opt3s
  = (Raise NotImplementedError, opt3s).
Proof.
  intros Hi Hh. apply Nat.eqb_neq in Hi, Hh.
  unfold UnsupSimCSE.forward, SupSimCSE.forward, UniformSampler.forward,
    WeightedSampler.forward, SGLossOpt3.forward, SGLossOpt3Simplified.forward.
  rewrite Hi, Hh. cbn [negb].
  repeat split. destruct weights; reflexivity.
Qed.

Lemma shape_check_raises_witness :
  ndim flat_tokens <> 3 /\ ndim batch_a <> 3 /\
  UnsupSimCSE.forward (SC := symScalar) toy_pooler flat_tokens flat_tokens
    None sample_unsup
  = (Raise NotImplementedError, sample_unsup) /\
  SupSimCSE.forward (SC := symScalar) toy_pooler flat_tokens flat_tokens
    None sample_sup
  = (Raise NotImplementedError, sample_sup) /\
  UniformSampler.forward (SC := symScalar) batch_a UniformSampler.mk
  = (Raise NotImplementedError, UniformSampler.mk) /\
  WeightedSampler.forward (SC := symScalar) batch_a (Some layer_weights)
    sample_weighted
  = (Raise NotImplementedError, sample_weighted) /\
  SGLossOpt3.forward (SC := symScalar) batch_a batch_a sample_opt3
  = (Raise NotImplementedError, sample_opt3) /\
  SGLossOpt3Simplified.forward (SC := symScalar) batch_a batch_a sample_opt3s
  = (Raise NotImplementedError, sample_opt3s).
Proof.
  split; [discriminate|]. split; [discriminate|].
  apply (@shape_check_raises symScalar); discriminate.
Defined.

(** ** The supervised contrastive loss *)

Section Supervised.
Context {SC : Scalar}.

Lemma cosine_outer_ok (B H : nat) (x y : list num) :
  exists t, cosine_similarity (mkTensor [B; 1; H] x) (mkTensor [1; B; H] y)
            = Ok t.
Proof.
  unfold cosine_similarity. cbn [shape]. rewrite broadcast_outer.
  cbn [bind result_Monad rev app]. eexists. reflexivity.
Qed.

End Supervised.

(** C3. [SupContrastiveLoss.forward] never returns a loss.  It hands
    [torch.cat] the two similarity matrices as two positional tensors next
    to the keyword [dim], which the call rejects with [TypeError] whatever
    the tensors are; on three batches of a common shape
    [batch_size, hidden] that is the outcome of [forward], reached before
    the cross-entropy. *)
Theorem SupContrastiveLoss_forward_fails {SC : Scalar}
    (self : SupContrastiveLoss.t) (premise entail contra : ftensor) :
  is_ok (fst (SupContrastiveLoss.forward premise entail contra self)) = false /\
  (forall a b : ftensor,
     torch_cat [ATensor a; ATensor b] [("dim", AInt (-1))] = Raise TypeError) /\
  (forall batch_size hidden,
     shape premise = [batch_size; hidden] ->
     shape entail = [batch_size; hidden] ->
     shape contra = [batch_size; hidden] ->
     SupContrastiveLoss.forward premise entail contra self
     = (Raise TypeError, self)).
Proof.
  split; [|split].
  - unfold SupContrastiveLoss.forward, call, getattr.
    cbn [bind method_Monad].
    destruct (unsqueeze premise 1); [|reflexivity].
    destruct (unsqueeze entail 0); [|reflexivity].
    destruct (cosine_similarity _ _); [|reflexivity].
    destruct (unsqueeze contra 0); [|reflexivity].
    destruct (cosine_similarity _ _); reflexivity.
  - reflexivity.
  - intros B H Hp He Hc.
    destruct premise as [sp p], entail as [se e], contra as [sc c].
    cbn [shape] in Hp, He, Hc. subst sp se sc.
    unfold SupContrastiveLoss.forward, call, getattr.
    change (unsqueeze (mkTensor [B; H] p) 1) with (Ok (mkTensor [B; 1; H] p)).
    change (unsqueeze (mkTensor [B; H] e) 0) with (Ok (mkTensor [1; B; H] e)).
    change (unsqueeze (mkTensor [B; H] c) 0) with (Ok (mkTensor [1; B; H] c)).
    cbn [bind method_Monad].
    destruct (cosine_outer_ok B H p e) as [t1 ->].
    destruct (cosine_outer_ok B H p c) as [t2 ->].
    reflexivity.
Qed.

Lemma SupContrastiveLoss_forward_fails_witness :
  shape batch_a = [2; 3] /\ shape batch_b = [2; 3] /\
  SupContrastiveLoss.forward (SC := symScalar) batch_a batch_b batch_b
    sample_sup_loss
  = (Raise TypeError, sample_sup_loss).
Proof.
  split; [reflexivity|]. split; [reflexivity|].
  apply (proj2 (proj2 (@SupContrastiveLoss_forward_fails symScalar
                         sample_sup_loss batch_a batch_b batch_b)) 2 3);
    reflexivity.
Defined.

(** ** The SimCSE wrappers *)

Section Wrappers.
Context {SC : Scalar}.
Variable pooler : string -> tensor Z -> tensor Z -> tensor Z -> result ftensor.

(** With a tokenizer stored in [self.bert] no call of [forward] returns. *)
Lemma UnsupSimCSE_forward_tokenizer (self : UnsupSimCSE.t)
    (input_ids attention_mask : tensor Z) (token_type_ids : option (tensor Z))
    (name : string) :
  UnsupSimCSE.bert self = Tokenizer name ->
  is_ok (fst (UnsupSimCSE.forward pooler input_ids attention_mask
                token_type_ids self)) = false.
Proof.
  intro Hb. unfold UnsupSimCSE.forward.
  destruct (negb (ndim input_ids =? 3)); [reflexivity|].
  destruct (shape input_ids) as [|b [|v [|h [|? ?]]]]; try reflexivity.
  unfold call, getattr. cbn [bind method_Monad].
  destruct (reshape input_ids _); [|reflexivity].
  destruct (reshape attention_mask _); [|reflexivity].
  destruct token_type_ids as [ids|]; cbn [bind method_Monad ret load_local].
  - destruct (reshape ids _); [|reflexivity].
    rewrite Hb. reflexivity.
  - reflexivity.
Qed.

Lemma SupSimCSE_forward_tokenizer (self : SupSimCSE.t)
    (input_ids attention_mask : tensor Z) (token_type_ids : option (tensor Z))
    (name : string) :
  SupSimCSE.bert self = Tokenizer name ->
  is_ok (fst (SupSimCSE.forward pooler input_ids attention_mask
                token_type_ids self)) = false.
Proof.
  intro Hb. unfold SupSimCSE.forward.
  destruct (negb (ndim input_ids =? 3)); [reflexivity|].
  destruct (shape input_ids) as [|b [|v [|h [|? ?]]]]; try reflexivity.
  unfold call, getattr. cbn [bind method_Monad].
  destruct (reshape input_ids _); [|reflexivity].
  destruct (reshape attention_mask _); [|reflexivity].
  destruct token_type_ids as [ids|]; cbn [bind method_Monad ret load_local].
  - destruct (reshape ids _); [|reflexivity].
    rewrite Hb. reflexivity.
  - reflexivity.
Qed.

(** Without [token_type_ids] no call of [forward] returns, whatever is
    stored in [self.bert]. *)
Lemma UnsupSimCSE_forward_no_token_types (self : UnsupSimCSE.t)
    (input_ids attention_mask : tensor Z) :
  is_ok (fst (UnsupSimCSE.forward pooler input_ids attention_mask None self))
  = false.
Proof.
  unfold UnsupSimCSE.forward.
  destruct (negb (ndim input_ids =? 3)); [reflexivity|].
  destruct (shape input_ids) as [|b [|v [|h [|? ?]]]]; try reflexivity.
  unfold call, getattr. cbn [bind method_Monad].
  destruct (reshape input_ids _); [|reflexivity].
  destruct (reshape attention_mask _); reflexivity.
Qed.

Lemma SupSimCSE_forward_no_token_types (self : SupSimCSE.t)
    (input_ids attention_mask : tensor Z) :
  is_ok (fst (SupSimCSE.forward pooler input_ids attention_mask None self))
  = false.
Proof.
  unfold SupSimCSE.forward.
  destruct (negb (ndim input_ids =? 3)); [reflexivity|].
  destruct (shape input_ids) as [|b [|v [|h [|? ?]]]]; try reflexivity.
  unfold call, getattr. cbn [bind method_Monad].
  destruct (reshape input_ids _); [|reflexivity].
  destruct (reshape attention_mask _); reflexivity.
Qed.

End Wrappers.

(** C4. The wrappers are meant to hold a pretrained encoder in [self.bert]
    and to run the flattened inputs through it.  The constructors store what
    [AutoTokenizer.from_pretrained] returns instead: [self.bert] is a
    tokenizer, not the encoder [AutoModel.from_pretrained] would give, and
    with it no call of [forward] returns. *)
Theorem SimCSE_init_stores_tokenizer {SC : Scalar} (pretraind_model : string)
    (temp : num) :
  (exists self,
     UnsupSimCSE.__init__ pretraind_model temp = Ok self /\
     UnsupSimCSE.bert self = Tokenizer pretraind_model /\
     UnsupSimCSE.bert self <> AutoModel_from_pretrained pretraind_model /\
     forall pooler input_ids attention_mask token_type_ids,
       is_ok (fst (UnsupSimCSE.forward pooler input_ids attention_mask
                     token_type_ids self)) = false) /\
  (exists self,
     SupSimCSE.__init__ pretraind_model temp = Ok self /\
     SupSimCSE.bert self = Tokenizer pretraind_model /\
     SupSimCSE.bert self <> AutoModel_from_pretrained pretraind_model /\
     forall pooler input_ids attention_mask token_type_ids,
       is_ok (fst (SupSimCSE.forward pooler input_ids attention_mask
                     token_type_ids self)) = false).
Proof.
  split; eexists; (split; [reflexivity|]); (split; [reflexivity|]);
    (split; [discriminate|]); intros.
  - now apply UnsupSimCSE_forward_tokenizer with (name := pretraind_model).
  - now apply SupSimCSE_forward_tokenizer with (name := pretraind_model).
Qed.

(** C10, as the code has it.  With [token_type_ids] left at [None] neither
    wrapper ever returns.  The error is [UnboundLocalError], from reading
    [flat_token_type_ids], once [input_ids] has three dimensions and
    [input_ids] and [attention_mask] both reshape to
    [batch_size * views, hidden_dim] (two views, or three for the supervised
    wrapper); a call that fails the shape check or a reshape stops there
    with that error. *)
Theorem SimCSE_forward_without_token_types {SC : Scalar}
    (pooler : string -> tensor Z -> tensor Z -> tensor Z -> result ftensor)
    (unsup : UnsupSimCSE.t) (sup : SupSimCSE.t)
    (input_ids attention_mask : tensor Z) :
  is_ok (fst (UnsupSimCSE.forward pooler input_ids attention_mask None unsup))
  = false /\
  is_ok (fst (SupSimCSE.forward pooler input_ids attention_mask None sup))
  = false /\
  (forall batch_size views hidden_dim,
     shape input_ids = [batch_size; views; hidden_dim] ->
     numel input_ids = prod [batch_size * 2; hidden_dim] ->
     numel attention_mask = prod [batch_size * 2; hidden_dim] ->
     UnsupSimCSE.forward pooler input_ids attention_mask None unsup
     = (Raise UnboundLocalError, unsup)) /\
  (forall batch_size views hidden_dim,
     shape input_ids = [batch_size; views; hidden_dim] ->
     numel input_ids = prod [batch_size * 3; hidden_dim] ->
     numel attention_mask = prod [batch_size * 3; hidden_dim] ->
     SupSimCSE.forward pooler input_ids attention_mask None sup
     = (Raise UnboundLocalError, sup)).
Proof.
  split; [apply UnsupSimCSE_forward_no_token_types|].
  split; [apply SupSimCSE_forward_no_token_types|].
  split; intros B V H Hs Hi Hm.
  - unfold UnsupSimCSE.forward, ndim, reshape. rewrite Hs, Hi, Hm.
    cbn [length Nat.eqb negb]. rewrite Nat.eqb_refl. reflexivity.
  - unfold SupSimCSE.forward, ndim, reshape. rewrite Hs, Hi, Hm.
    cbn [length Nat.eqb negb]. rewrite Nat.eqb_refl. reflexivity.
Qed.

Lemma SimCSE_forward_without_token_types_witness :
  shape tokens = [1; 2; 3] /\
  numel tokens = prod [1 * 2; 3] /\
  numel mask = prod [1 * 2; 3] /\
  UnsupSimCSE.forward (SC := symScalar) toy_pooler tokens mask None
    sample_unsup
  = (Raise UnboundLocalError, sample_unsup).
Proof.
  repeat (split; [reflexivity|]).
  apply (proj1 (proj2 (proj2 (@SimCSE_forward_without_token_types symScalar
           toy_pooler sample_unsup sample_sup tokens mask))) 1 2 3);
    reflexivity.
Defined.

(** C10 as stated fails: with [token_type_ids] left at [None], a
    two-dimensional [input_ids] is stopped by the shape check, and a
    three-dimensional one that does not hold two views per sentence by the
    reshape; neither error is [UnboundLocalError]. *)
Lemma SimCSE_forward_without_token_types_counterexample :
  fst (UnsupSimCSE.forward (SC := symScalar) toy_pooler flat_tokens flat_tokens
         None sample_unsup)
  = Raise NotImplementedError /\
  fst (SupSimCSE.forward (SC := symScalar) toy_pooler flat_tokens flat_tokens
         None sample_sup)
  = Raise NotImplementedError /\
  fst (SupSimCSE.forward (SC := symScalar) toy_pooler tokens mask None
         sample_sup)
  = Raise RuntimeError /\
  ~ (forall (input_ids attention_mask : tensor Z),
       fst (UnsupSimCSE.forward (SC := symScalar) toy_pooler input_ids
              attention_mask None sample_unsup)
       = Raise UnboundLocalError).
Proof.
  repeat (split; [reflexivity|]).
  intro H. specialize (H flat_tokens flat_tokens). discriminate H.
Qed.

(** ** The weighted sampler *)

(** C5, as the code has it.  A [weights] argument that is passed is never
    used: the stored [self.weights] is taken, so two calls that differ only
    in that argument agree.  When the argument is left at [None], [w] is
    [None]: on hidden states of three dimensions the length check [len(w)]
    raises [TypeError], and on any other input the shape check before it
    raises [NotImplementedError]. *)
Theorem WeightedSampler_weights_argument {SC : Scalar}
    (self : WeightedSampler.t) (hidden_states w1 w2 : ftensor) :
  WeightedSampler.forward hidden_states (Some w1) self
  = WeightedSampler.forward hidden_states (Some w2) self /\
  WeightedSampler.forward hidden_states None self
  = (Raise (if ndim hidden_states =? 3 then TypeError
            else NotImplementedError), self).
Proof.
  split; [reflexivity|].
  unfold WeightedSampler.forward, ndim. cbn [bind method_Monad ret].
  destruct (shape hidden_states) as [|b [|l [|h [|? ?]]]]; reflexivity.
Qed.

(** C5 as stated fails: with [weights] left at [None] and hidden states of
    two dimensions, the call stops at the shape check; the length check is
    not reached. *)
Lemma WeightedSampler_weights_argument_counterexample :
  WeightedSampler.forward (SC := symScalar) batch_a None sample_weighted
  = (Raise NotImplementedError, sample_weighted) /\
  ~ (forall hidden_states : tensor sym,
       fst (WeightedSampler.forward (SC := symScalar) hidden_states None
              sample_weighted)
       = Raise TypeError).
Proof.
  split; [reflexivity|].
  intro H. specialize (H batch_a). discriminate H.
Qed.

(** ** Construction and import *)

(** C6. Constructing [SelfGuidedContraModel] raises whatever the arguments:
    [__init__] starts with [super.__init__()], a call of the initialiser of
    the builtin [super] without a receiver, which is a [TypeError]; no
    instance is returned. *)
Theorem SelfGuidedContraModel_init_raises {SC : Scalar} (model_name : string)
    (total_loss : TotalLoss.t) (hidden : nat) :
  super__init__ [] = Raise TypeError /\
  SelfGuidedContraModel.__init__ model_name total_loss hidden = Raise TypeError.
Proof. split; reflexivity. Qed.

(** C7. [RegHiddenLoss] names [nn.Moduke] as its base class.  [nn] exports
    no such name, so the class statement raises [AttributeError]: the
    import of the module fails, and [RegHiddenLoss] is never bound. *)
Theorem import_fails_at_RegHiddenLoss (nn : list string) :
  exports nn "Moduke" = false ->
  fst (import_myModule nn) = Raise AttributeError /\
  ~ In "RegHiddenLoss" (snd (import_myModule nn)).
Proof.
  intro Hm. unfold import_myModule, myModule.
  cbn [exec_body]. unfold exec_class, call, nn_getattr, bind_global.
  cbn [base_attr class_name bind method_Monad].
  destruct (exports nn "Module"); rewrite ?Hm; cbn [fst snd].
  - split; [reflexivity|].
    cbn [In]. intros H.
    repeat (destruct H as [H|H]; [discriminate H|]). exact H.
  - split; [reflexivity|]. intros [].
Qed.

Lemma import_fails_at_RegHiddenLoss_witness :
  exports nn_names "Moduke" = false /\
  fst (import_myModule nn_names) = Raise AttributeError /\
  ~ In "RegHiddenLoss" (snd (import_myModule nn_names)).
Proof.
  split; [reflexivity|].
  apply (import_fails_at_RegHiddenLoss nn_names). reflexivity.
Defined.

(** ** Statelessness *)

(** C8. Every [forward] of the loss and sampler modules hands its receiver
    back as it was given, field by field, and a second call with the same
    arguments returns what the first returned. *)
Theorem forward_stateless {SC : Scalar} :
  (forall first second,
     stateless (UnsupContrastiveLoss.forward first second) /\
     repeatable (UnsupContrastiveLoss.forward first second)) /\
  (forall premise entail contra,
     stateless (SupContrastiveLoss.forward premise entail contra) /\
     repeatable (SupContrastiveLoss.forward premise entail contra)) /\
  (forall hidden_states,
     stateless (UniformSampler.forward hidden_states) /\
     repeatable (UniformSampler.forward hidden_states)) /\
  (forall hidden_states weights,
     stateless (WeightedSampler.forward hidden_states weights) /\
     repeatable (WeightedSampler.forward hidden_states weights)) /\
  (forall cls hidden,
     stateless (SGLossOpt2.forward cls hidden) /\
     repeatable (SGLossOpt2.forward cls hidden)) /\
  (forall cls hidden,
     stateless (SGLossOpt3.forward cls hidden) /\
     repeatable (SGLossOpt3.forward cls hidden)) /\
  (forall cls hidden,
     stateless (SGLossOpt3Simplified.forward cls hidden) /\
     repeatable (SGLossOpt3Simplified.forward cls hidden)) /\
  (forall param1 param2,
     stateless (RegLoss.forward param1 param2) /\
     repeatable (RegLoss.forward param1 param2)) /\
  (forall cls hiddens p1 p2,
     stateless (TotalLoss.forward cls hiddens p1 p2) /\
     repeatable (TotalLoss.forward cls hiddens p1 p2)).
Proof.
  repeat split; intros;
    try apply stateless_repeatable;
    auto using UnsupContrastiveLoss_forward_stateless,
      SupContrastiveLoss_forward_stateless, UniformSampler_forward_stateless,
      WeightedSampler_forward_stateless, SGLossOpt2_forward_stateless,
      SGLossOpt3_forward_stateless, SGLossOpt3Simplified_forward_stateless,
      RegLoss_forward_stateless, TotalLoss_forward_stateless.
Qed.

(** ** The second self-guided loss *)

(** C9. [SGLossOpt2(temp).forward(cls, hidden)] and
    [UnsupContrastiveLoss(temp).forward(cls, hidden)] have the same outcome
    for every [temp] and all tensors: the same pair [(loss, sim)], or the
    same exception. *)
Theorem SGLossOpt2_is_UnsupContrastiveLoss {SC : Scalar} (temp : num)
    (cls hidden : ftensor) :
  exists (opt2 : SGLossOpt2.t) (unsup : UnsupContrastiveLoss.t),
    SGLossOpt2.__init__ temp = Ok opt2 /\
    UnsupContrastiveLoss.__init__ temp = Ok unsup /\
    fst (SGLossOpt2.forward cls hidden opt2)
    = fst (UnsupContrastiveLoss.forward cls hidden unsup).
Proof.
  eexists _, _. split; [reflexivity|]. split; [reflexivity|].
  unfold SGLossOpt2.forward, UnsupContrastiveLoss.forward, call, getattr.
  cbn [bind method_Monad ret SGLossOpt2.temp UnsupContrastiveLoss.temp].
  destruct (unsqueeze cls 1); [|reflexivity].
  destruct (unsqueeze hidden 0); [|reflexivity].
  destruct (cosine_similarity _ _); [|reflexivity].
  destruct (shape0 _); [|reflexivity].
  destruct (cross_entropy _ _); reflexivity.
Qed.

(** * Further properties of the modules *)

(** ** Element-wise operators on equal shapes *)

Lemma broadcast_rev_same (s : list nat) : broadcast_rev s s = Some s.
Proof.
  induction s as [|n s IH]; simpl; [reflexivity|].
  now rewrite Nat.eqb_refl, IH.
Qed.

Lemma broadcast_shapes_same (s : list nat) : broadcast_shapes s s = Ok s.
Proof.
  unfold broadcast_shapes. now rewrite broadcast_rev_same, rev_involutive.
Qed.

Lemma pad_shape_same (s : list nat) : pad_shape (length s) s = s.
Proof. unfold pad_shape. now rewrite Nat.sub_diag. Qed.

Lemma expand_same_shape {A : Type} (x : tensor A) :
  wf x -> expand x (shape x) = x.
Proof.
  intro Hx. unfold expand. rewrite pad_shape_same.
  rewrite expand_data_id by exact Hx. now destruct x.
Qed.

(** No broadcasting happens between two tensors of one shape. *)
Lemma binop_same_shape {A B C : Type} (f : A -> B -> C) (x : tensor A)
    (y : tensor B) :
  shape x = shape y -> wf x -> wf y ->
  binop f x y = Ok (mkTensor (shape x) (map2 f (data x) (data y))).
Proof.
  intros Hs Hx Hy. unfold binop. rewrite <- Hs, broadcast_shapes_same.
  cbn [bind result_Monad]. rewrite (expand_same_shape Hx).
  rewrite Hs, (expand_same_shape Hy). reflexivity.
Qed.

Lemma mapM_ok {A B : Type} (f : A -> result B) (g : A -> B) (l : list A) :
  (forall a, In a l -> f a = Ok (g a)) -> mapM f l = Ok (map g l).
Proof.
  induction l as [|a l IH]; intro H; simpl; [reflexivity|].
  rewrite (H a) by now left. cbn [bind result_Monad].
  rewrite IH by (intros; apply H; now right). reflexivity.
Qed.

Lemma flat_map_data_scalars {A : Type} (vs : list A) :
  flat_map (@data A) (map scalar vs) = vs.
Proof.
  induction vs as [|a l IH]; simpl; [reflexivity|]. now rewrite IH.
Qed.

(** A stack of scalars is the vector of their values. *)
Lemma stack_scalars {A : Type} (v : A) (vs : list A) :
  stack (scalar v :: map scalar vs) = Ok (mkTensor [S (length vs)] (v :: vs)).
Proof.
  unfold stack. cbn [shape scalar].
  replace (forallb _ _) with true.
  - cbn [length flat_map data app].
    now rewrite length_map, (flat_map_data_scalars vs).
  - symmetry. apply forallb_forall. intros u [<-|Hu]; [reflexivity|].
    apply in_map_iff in Hu. destruct Hu as (a & <- & _). reflexivity.
Qed.

(** ** The regularisation loss *)

Section Regularisation.
Context {SC : Scalar}.

(** The squared distance of two tensors of one shape. *)
Lemma sq_dist_same_shape (a b : ftensor) :
  shape a = shape b -> wf a -> wf b ->
  RegLoss.sq_dist (a, b) = Ok (scalar (fsum (map2 sq_diff (data a) (data b)))).
Proof.
  intros Hs Ha Hb. unfold RegLoss.sq_dist, tsub. cbn [fst snd].
  rewrite (binop_same_shape fsub Hs Ha Hb). cbn [bind result_Monad].
  unfold sum_all, tsquare, tmap, flatten. cbn [data].
  unfold map2. rewrite map_map. reflexivity.
Qed.

End Regularisation.

(** X1. On two non-empty parameter lists that pair tensors of equal shapes,
    [RegLoss.forward] returns the Euclidean distance of the two lists: the
    square root of the sum, over the pairs, of the summed squared
    differences; the result has no dimension. *)
Theorem RegLoss_forward_distance {SC : Scalar} (self : RegLoss.t)
    (param1 param2 : list ftensor) :
  param1 <> [] ->
  Forall2 (fun a b => shape a = shape b /\ wf a /\ wf b) param1 param2 ->
  RegLoss.forward param1 param2 self
  = (Ok (scalar (fsqrt (fsum
       (map (fun p => fsum (map2 sq_diff (data (fst p)) (data (snd p))))
            (combine param1 param2))))), self).
Proof.
  intros Hne Hall. unfold RegLoss.forward, call.
  cbn [bind method_Monad ret].
  set (G := fun p : ftensor * ftensor =>
              fsum (map2 sq_diff (data (fst p)) (data (snd p)))).
  rewrite (mapM_ok RegLoss.sq_dist (fun p => scalar (G p))).
  - destruct Hall as [|a b l1 l2 Hab Hall]; [contradiction|].
    cbn [combine map]. rewrite <- (map_map G scalar).
    unfold ftensor. rewrite stack_scalars. reflexivity.
  - intros [a b] Hin. cbn [fst snd].
    assert (Hp : shape a = shape b /\ wf a /\ wf b).
    { clear Hne. induction Hall as [|a' b' l1 l2 Hab Hall IH];
        simpl in Hin; [contradiction|].
      destruct Hin as [Heq|Hin]; [now inversion Heq; subst|now apply IH]. }
    destruct Hp as (Hs & Ha & Hb). now apply sq_dist_same_shape.
Qed.

Lemma combine_min {A B : Type} (l : list A) (m : list B) :
  combine (firstn (min (length l) (length m)) l)
          (firstn (min (length l) (length m)) m)
  = combine l m.
Proof.
  revert m. induction l as [|a l IH]; intros [|b m]; simpl; try reflexivity.
  now rewrite IH.
Qed.

(** X2. [RegLoss.forward] walks the two lists in step, as [zip] does: what
    one list holds beyond the length of the other is never looked at. *)
Theorem RegLoss_forward_zip {SC : Scalar} (self : RegLoss.t)
    (param1 param2 : list ftensor) :
  let n := min (length param1) (length param2) in
  RegLoss.forward param1 param2 self
  = RegLoss.forward (firstn n param1) (firstn n param2) self.
Proof.
  intro n. unfold RegLoss.forward, n. now rewrite combine_min.
Qed.

(** X3. When one of the two parameter lists is empty there is nothing to
    stack: [RegLoss.forward] raises [RuntimeError] and returns no loss. *)
Theorem RegLoss_forward_empty {SC : Scalar} (self : RegLoss.t)
    (param1 param2 : list ftensor) :
  param1 = [] \/ param2 = [] ->
  RegLoss.forward param1 param2 self = (Raise RuntimeError, self).
Proof.
  intros [-> | ->]; unfold RegLoss.forward.
  - reflexivity.
  - now rewrite combine_nil.
Qed.

Lemma RegLoss_forward_empty_witness :
  ([batch_a] = [] \/ @nil (tensor sym) = []) /\
  RegLoss.forward (SC := symScalar) [batch_a] [] RegLoss.mk
  = (Raise RuntimeError, RegLoss.mk).
Proof.
  split; [now right|].
  apply (@RegLoss_forward_empty symScalar RegLoss.mk [batch_a] []).
  now right.
Defined.

Lemma RegLoss_forward_distance_witness :
  [batch_a; layers_a] <> [] /\
  Forall2 (fun a b : tensor sym => shape a = shape b /\ wf a /\ wf b)
    [batch_a; layers_a] [batch_b; layers_a] /\
  RegLoss.forward (SC := symScalar) [batch_a; layers_a] [batch_b; layers_a]
    RegLoss.mk
  = (Ok (scalar (SSqrt (SSum
       (map (fun p => SSum (map2 (sq_diff (SC := symScalar))
                                 (data (fst p)) (data (snd p))))
            (combine [batch_a; layers_a] [batch_b; layers_a]))))),
     RegLoss.mk).
Proof.
  split; [discriminate|].
  assert (H : Forall2 (fun a b : tensor sym => shape a = shape b /\ wf a /\ wf b)
                [batch_a; layers_a] [batch_b; layers_a])
    by (repeat constructor).
  split; [exact H|].
  apply (@RegLoss_forward_distance symScalar RegLoss.mk
           [batch_a; layers_a] [batch_b; layers_a]); [discriminate|exact H].
Defined.

(** X4. The [forward] that the body of [RegHiddenLoss] defines is the
    [forward] of [RegLoss]: on the same two sequences both have the same
    outcome. *)
Theorem RegHiddenLoss_forward_is_RegLoss {SC : Scalar}
    (hidden1 hidden2 : list ftensor) :
  fst (RegHiddenLoss.forward hidden1 hidden2 RegHiddenLoss.mk)
  = fst (RegLoss.forward hidden1 hidden2 RegLoss.mk).
Proof.
  unfold RegHiddenLoss.forward, RegLoss.forward, call.
  cbn [bind method_Monad ret].
  change RegHiddenLoss.sq_dist with RegLoss.sq_dist.
  destruct (mapM RegLoss.sq_dist (combine hidden1 hidden2)) as [l|e];
    [|reflexivity].
  destruct (stack l); reflexivity.
Qed.

(** ** The samplers *)

Section Columns.
Context {A : Type}.

Lemma nth_block (k i j : nat) (l : list A) (d : A) :
  j < k ->
  nth j (firstn k (skipn (i * k) l)) d = nth (i * k + j) l d.
Proof.
  intro Hj. rewrite nth_firstn.
  apply Nat.ltb_lt in Hj. rewrite Hj. apply nth_skipn.
Qed.

(** Column [j] of a block of [n] rows of width [k]. *)
Lemma column_nth (k j : nat) (d : A) :
  j < k ->
  forall (n : nat) (block : list A),
  length block = n * k ->
  column j (chunk k n block)
  = map (fun l => nth (l * k + j) block d) (seq 0 n).
Proof.
  intros Hj n. induction n as [|n IH]; intros block Hb; [reflexivity|].
  cbn [chunk]. unfold column in *. cbn [flat_map].
  rewrite IH by (rewrite length_skipn; lia).
  rewrite (singleton_at _ d) by (rewrite length_firstn; lia).
  cbn [seq map app]. f_equal.
  - rewrite nth_firstn. apply Nat.ltb_lt in Hj. now rewrite Hj.
  - rewrite <- seq_shift, map_map. apply map_ext. intro l.
    rewrite nth_skipn. f_equal. lia.
Qed.

End Columns.

(** X5. On hidden states of shape [batch, layers, hidden] the uniform
    sampler returns a [batch]-by-[hidden] matrix: entry [(b, h)] is the mean,
    over the layers [l], of element [(b, l, h)] of the input, which sits at
    position [(b * layers + l) * hidden + h] of the row-major storage. *)
Theorem UniformSampler_forward_mean {SC : Scalar} (self : UniformSampler.t)
    (hidden_states : ftensor) (batch layers hidden : nat) (d : num) :
  shape hidden_states = [batch; layers; hidden] ->
  wf hidden_states ->
  exists out,
    UniformSampler.forward hidden_states self = (Ok out, self) /\
    shape out = [batch; hidden] /\
    forall b h, b < batch -> h < hidden ->
      select2 out b h
      = Ok (scalar (fmean
              (map (fun l => nth ((b * layers + l) * hidden + h)
                                 (data hidden_states) d)
                   (seq 0 layers)))).
Proof.
  destruct hidden_states as [s x]. unfold wf, numel. cbn [shape data].
  intros -> Hx.
  assert (Lx : length x = batch * (layers * hidden)) by (simpl in Hx; lia).
  unfold UniformSampler.forward, mean_dim, reduce_dim, ndim, call.
  cbn [shape data length Nat.eqb negb].
  change (wrap_dim 3 1) with (Ok 1).
  cbn [bind result_Monad firstn skipn app].
  replace (prod [hidden]) with hidden by (simpl; lia).
  replace (prod [batch]) with batch by (simpl; lia).
  eexists. split; [reflexivity|]. split; [reflexivity|].
  intros b h Hb Hh. cbn [shape data].
  unfold reduce_block, transpose.
  set (g := fun (block : list num) (j : nat) =>
              fmean (column j (chunk hidden layers block))).
  set (rows := chunk (layers * hidden) batch x).
  assert (Hrows : length rows = batch) by apply chunk_length.
  replace (flat_map _ rows)
    with (flat_map (fun r => map (g r) (seq 0 hidden)) rows)
    by (apply flat_map_ext; intro r; now rewrite map_map).
  pose proof (@select2_outer SC _ _ g rows (seq 0 hidden) [] 0 b h) as Hsel.
  rewrite Hrows, length_seq in Hsel. rewrite Hsel by assumption.
  f_equal. f_equal. unfold g. rewrite seq_nth by assumption. cbn [Nat.add].
  assert (Hblock : nth b rows [] = firstn (layers * hidden)
                                     (skipn (b * (layers * hidden)) x)).
  { unfold rows. rewrite <- (concat_chunk (layers * hidden) batch x) at 2
      by lia.
    symmetry. apply block_of_concat.
    - apply chunk_uniform. lia.
    - now rewrite chunk_length. }
  rewrite Hblock.
  rewrite (column_nth d Hh).
  - f_equal. apply map_ext_in. intros l Hl. apply in_seq in Hl.
    rewrite nth_block by nia. f_equal. lia.
  - rewrite length_firstn, length_skipn. nia.
Qed.

Lemma UniformSampler_forward_mean_witness :
  shape layers_a = [2; 2; 3] /\ wf layers_a /\
  exists out,
    UniformSampler.forward (SC := symScalar) layers_a UniformSampler.mk
    = (Ok out, UniformSampler.mk) /\
    shape out = [2; 3] /\
    forall b h, b < 2 -> h < 3 ->
      select2 out b h
      = Ok (scalar (fmean (SC := symScalar)
              (map (fun l => nth ((b * 2 + l) * 3 + h) (data layers_a)
                                 (SLit 0))
                   (seq 0 2)))).
Proof.
  split; [reflexivity|]. split; [reflexivity|].
  apply (@UniformSampler_forward_mean symScalar UniformSampler.mk layers_a
           2 2 3 (SLit 0)); reflexivity.
Defined.

Lemma concat_repeat_singleton {A : Type} (a : A) (n : nat) :
  concat (repeat [a] n) = repeat a n.
Proof. induction n as [|n IH]; simpl; [reflexivity|]. now rewrite IH. Qed.

Lemma chunk_singletons {A : Type} (l : list A) :
  chunk 1 (length l) l = map (fun a => [a]) l.
Proof. induction l as [|a l IH]; simpl; [reflexivity|]. now rewrite IH. Qed.

Lemma map2_repeat_r {A B C : Type} (f : A -> B -> C) (b : B) (l : list A) :
  map2 f l (repeat b (length l)) = map (fun a => f a b) l.
Proof.
  unfold map2. induction l as [|a l IH]; simpl; [reflexivity|].
  now rewrite IH.
Qed.

Lemma expand_id {A : Type} (s : list nat) (d : list A) :
  length d = prod s -> expand (mkTensor s d) s = mkTensor s d.
Proof. intro H. now apply (expand_same_shape (x := mkTensor s d)). Qed.

(** A scalar expanded to a vector, and a vector of per-layer values
    expanded over batch and hidden units. *)
Lemma expand_scalar {A : Type} (a : A) (n : nat) :
  expand (scalar a) [n] = mkTensor [n] (repeat a n).
Proof.
  unfold expand, pad_shape. cbn [shape data scalar length Nat.sub repeat app].
  rewrite expand_data_one by reflexivity.
  cbn [expand_data]. now rewrite concat_repeat_singleton.
Qed.

Lemma expand_per_layer {A : Type} (w : list A) (B L H : nat) :
  length w = L ->
  expand (mkTensor [1; L; 1] w) [B; L; H]
  = mkTensor [B; L; H] (concat (repeat (flat_map (fun x => repeat x H) w) B)).
Proof.
  intros Hw. unfold expand, pad_shape.
  cbn [shape data length Nat.sub repeat app].
  rewrite expand_data_one by (simpl; lia).
  rewrite expand_data_cons.
  replace (prod [1]) with 1 by reflexivity.
  rewrite <- Hw, chunk_singletons.
  do 3 f_equal. rewrite flat_map_concat_map, map_map.
  rewrite <- flat_map_concat_map. apply flat_map_ext. intro x.
  rewrite expand_data_one by reflexivity.
  cbn [expand_data]. apply concat_repeat_singleton.
Qed.

Lemma broadcast_per_layer (B L H : nat) :
  broadcast_shapes [B; L; H] [1; L; 1] = Ok [B; L; H].
Proof.
  unfold broadcast_shapes. simpl.
  destruct (H =? 1) eqn:EH; [apply Nat.eqb_eq in EH; subst H|];
    simpl; rewrite Nat.eqb_refl; simpl;
    (destruct (B =? 1) eqn:EB; [apply Nat.eqb_eq in EB; subst B|]);
    reflexivity.
Qed.

(** X6. With a [weights] argument passed, hidden states of shape
    [batch, layers, hidden] and stored weights of one dimension and length
    [layers], the weighted sampler returns a single number and not a
    matrix: the sum, over every batch entry, layer and hidden unit, of the
    hidden state times the weight of its layer divided by the sum of the
    weights. *)
Theorem WeightedSampler_forward_total {SC : Scalar} (self : WeightedSampler.t)
    (hidden_states weights : ftensor) (batch layers hidden : nat) :
  shape hidden_states = [batch; layers; hidden] -> wf hidden_states ->
  shape (WeightedSampler.weights self) = [layers] ->
  wf (WeightedSampler.weights self) ->
  let w := data (WeightedSampler.weights self) in
  let normalised := map (fun x => fdiv x (fsum w)) w in
  WeightedSampler.forward hidden_states (Some weights) self
  = (Ok (scalar (fsum
       (map2 fmul (data hidden_states)
          (concat (repeat (flat_map (fun x => repeat x hidden) normalised)
                          batch))))), self).
Proof.
  destruct self as [[sw w]], hidden_states as [s x].
  unfold wf, numel. cbn [shape data WeightedSampler.weights].
  intros -> Hx -> Hw. cbn zeta.
  assert (Lw : length w = layers) by (simpl in Hw; lia).
  unfold WeightedSampler.forward, getattr, call, ndim.
  cbn [bind method_Monad ret WeightedSampler.weights shape data length
       Nat.eqb negb len].
  rewrite Nat.eqb_refl. cbn [negb].
  (* w / w.sum() *)
  unfold tdiv, binop, sum_all. cbn [shape scalar data].
  change (broadcast_shapes [layers] []) with (Ok [layers]).
  cbn [bind result_Monad].
  change (mkTensor [] [fsum w]) with (scalar (fsum w)).
  rewrite expand_scalar.
  rewrite expand_id by exact Hw.
  cbn [data]. rewrite <- Lw at 2. rewrite map2_repeat_r.
  (* w.unsqueeze(0).unsqueeze(-1) *)
  change (unsqueeze (mkTensor [layers] ?d) 0)
    with (Ok (mkTensor [1; layers] d)).
  cbn [bind result_Monad].
  change (unsqueeze (mkTensor [1; layers] ?d) (-1))
    with (Ok (mkTensor [1; layers; 1] d)).
  cbn [bind result_Monad].
  (* hidden_states * w *)
  unfold tmul, binop. cbn [shape]. rewrite broadcast_per_layer.
  cbn [bind result_Monad].
  rewrite expand_id by exact Hx.
  rewrite expand_per_layer by now rewrite length_map.
  reflexivity.
Qed.

Lemma WeightedSampler_forward_total_witness :
  shape layers_a = [2; 2; 3] /\ wf layers_a /\
  shape (WeightedSampler.weights sample_weighted) = [2] /\
  wf (WeightedSampler.weights sample_weighted) /\
  WeightedSampler.forward (SC := symScalar) layers_a (Some other_weights)
    sample_weighted
  = (Ok (scalar (SSum
       (map2 SMul (data layers_a)
          (concat (repeat
             (flat_map (fun x => repeat x 3)
                (map (fun x => SDiv x (SSum (data layer_weights)))
                     (data layer_weights)))
             2))))), sample_weighted).
Proof.
  repeat (split; [reflexivity|]).
  apply (@WeightedSampler_forward_total symScalar sample_weighted layers_a
           other_weights 2 2 3); reflexivity.
Defined.

(** X7. With a [weights] argument passed and hidden states of three
    dimensions, the weighted sampler checks the stored weights against the
    number of layers: stored weights without a dimension have no length
    ([TypeError]), and stored weights whose first dimension differs from the
    number of layers raise [NotImplementedError]. *)
Theorem WeightedSampler_forward_length_check {SC : Scalar}
    (self : WeightedSampler.t) (hidden_states weights : ftensor)
    (batch layers hidden : nat) :
  shape hidden_states = [batch; layers; hidden] ->
  (shape (WeightedSampler.weights self) = [] ->
   WeightedSampler.forward hidden_states (Some weights) self
   = (Raise TypeError, self)) /\
  (forall n rest,
     shape (WeightedSampler.weights self) = n :: rest -> n <> layers ->
     WeightedSampler.forward hidden_states (Some weights) self
     = (Raise NotImplementedError, self)).
Proof.
  intro Hs. unfold WeightedSampler.forward, getattr, call, ndim, len.
  cbn [bind method_Monad ret]. rewrite Hs. cbn [length Nat.eqb negb].
  split.
  - intros ->. reflexivity.
  - intros n rest -> Hn. cbn [bind method_Monad].
    apply not_eq_sym in Hn. apply Nat.eqb_neq in Hn. now rewrite Hn.
Qed.

Lemma WeightedSampler_forward_length_check_witness :
  shape layers_a = [2; 2; 3] /\
  shape (WeightedSampler.weights
           (WeightedSampler.Build_t (SC := symScalar) batch_a)) = [2; 3] /\
  2 = 2 /\
  shape (WeightedSampler.weights
           (WeightedSampler.Build_t (SC := symScalar) (scalar (SLit 1)))) = [] /\
  WeightedSampler.forward (SC := symScalar) layers_a (Some other_weights)
    (WeightedSampler.Build_t (SC := symScalar) (scalar (SLit 1)))
  = (Raise TypeError,
     WeightedSampler.Build_t (SC := symScalar) (scalar (SLit 1))) /\
  WeightedSampler.forward (SC := symScalar)
    (mkTensor [1; 3; 4] (repeat (SLit 0) 12)) (Some other_weights)
    sample_weighted
  = (Raise NotImplementedError, sample_weighted).
Proof.
  do 4 (split; [reflexivity|]).
  split.
  - apply (proj1 (@WeightedSampler_forward_length_check symScalar
             (WeightedSampler.Build_t (SC := symScalar) (scalar (SLit 1)))
             layers_a other_weights 2 2 3 eq_refl)).
    reflexivity.
  - apply (proj2 (@WeightedSampler_forward_length_check symScalar
             sample_weighted (mkTensor [1; 3; 4] (repeat (SLit 0) 12))
             other_weights 1 3 4 eq_refl) 2 []).
    + reflexivity.
    + discriminate.
Defined.

(** ** The self-guided losses *)

(** Steps through a chain of framework calls, one case per outcome. *)
Ltac step_calls :=
  repeat match goal with
  | |- context [match ?r with Ok _ => _ | Raise _ => _ end] =>
      match r with
      | Ok _ => fail 1
      | Raise _ => fail 1
      | _ => destruct r eqn:?; cbn [bind method_Monad result_Monad ret fst snd]
      end
  end.

(** X8. Neither SG-opt loss reads its temperature: two modules that differ
    in [temp] only return the same outcome on the same inputs. *)
Theorem SGLossOpt3_ignores_temp {SC : Scalar} (temp1 temp2 : num)
    (cls hidden : ftensor) :
  fst (SGLossOpt3.forward cls hidden (SGLossOpt3.Build_t temp1))
  = fst (SGLossOpt3.forward cls hidden (SGLossOpt3.Build_t temp2)) /\
  fst (SGLossOpt3Simplified.forward cls hidden
         (SGLossOpt3Simplified.Build_t temp1))
  = fst (SGLossOpt3Simplified.forward cls hidden
           (SGLossOpt3Simplified.Build_t temp2)).
Proof.
  unfold SGLossOpt3.forward, SGLossOpt3Simplified.forward, call, throw.
  destruct (negb (ndim hidden =? 3)); [split; reflexivity|].
  destruct (shape hidden) as [|b [|l [|h [|? ?]]]]; try (split; reflexivity).
  cbn [bind method_Monad ret].
  split; step_calls; reflexivity.
Qed.

(** X9. With an empty batch or no layer the loop of [SGLossOpt3.forward]
    appends nothing, and the stack of the empty list raises: on hidden
    states of shape [batch, layers, hidden] with [batch = 0] or [layers = 0]
    the call never returns a loss, whatever [cls] is. *)
Theorem SGLossOpt3_forward_empty {SC : Scalar} (self : SGLossOpt3.t)
    (cls hidden : ftensor) (batch layers hidden_dim : nat) :
  shape hidden = [batch; layers; hidden_dim] ->
  batch = 0 \/ layers = 0 ->
  is_ok (fst (SGLossOpt3.forward cls hidden self)) = false.
Proof.
  intros Hs Hz. unfold SGLossOpt3.forward, call, throw, ndim.
  rewrite Hs. cbn [length Nat.eqb negb bind method_Monad ret].
  assert (Hl : list_prod (seq 0 batch) (seq 0 layers) = []).
  { destruct Hz as [-> | ->]; [reflexivity|].
    cbn [seq]. induction (seq 0 batch) as [|a l IH]; [reflexivity|exact IH]. }
  rewrite Hl. cbn [mapM].
  step_calls; try reflexivity.
  match goal with H : stack [] = Ok _ |- _ => discriminate H end.
Qed.

(** Whether a framework call succeeds is decided by the shapes. *)
Lemma binop_shape {A B C : Type} (f : A -> B -> C) (x : tensor A)
    (y : tensor B) (s : list nat) :
  broadcast_shapes (shape x) (shape y) = Ok s ->
  exists d, binop f x y = Ok (mkTensor s d).
Proof. intro H. unfold binop. rewrite H. eexists. reflexivity. Qed.

Lemma cosine_shape {SC : Scalar} (x y : ftensor) (out : list nat) (h : nat) :
  broadcast_shapes (shape x) (shape y) = Ok (out ++ [h]) ->
  exists d, cosine_similarity x y = Ok (mkTensor out d).
Proof.
  intro H. unfold cosine_similarity. rewrite H. cbn [bind result_Monad].
  rewrite rev_app_distr. cbn [rev app]. rewrite rev_involutive.
  eexists. reflexivity.
Qed.

Lemma mapM_Forall {A B : Type} (f : A -> result B) (P : B -> Prop)
    (l : list A) :
  (forall a, In a l -> exists b, f a = Ok b /\ P b) ->
  exists bs, mapM f l = Ok bs /\ Forall P bs /\ length bs = length l.
Proof.
  induction l as [|a l IH]; intro H.
  - exists []. repeat split. constructor.
  - destruct (H a (or_introl eq_refl)) as (b & Hb & Pb).
    destruct IH as (bs & Hbs & Pbs & Lbs); [intros; apply H; now right|].
    exists (b :: bs). cbn [mapM]. rewrite Hb. cbn [bind result_Monad].
    rewrite Hbs. repeat split; [now constructor|simpl; now rewrite Lbs].
Qed.

Lemma stack_same_shape {A : Type} (l : list (tensor A)) (s : list nat) :
  l <> [] -> Forall (fun u => shape u = s) l ->
  exists d, stack l = Ok (mkTensor (length l :: s) d).
Proof.
  intros Hne Hall. destruct l as [|t l]; [contradiction|].
  unfold stack. replace (forallb _ _) with true.
  - inversion Hall; subst. eexists. reflexivity.
  - symmetry. apply forallb_forall. intros u Hu.
    rewrite Forall_forall in Hall.
    rewrite (Hall u Hu), (Hall t (or_introl eq_refl)).
    clear. induction s as [|n s IH]; simpl; [reflexivity|].
    now rewrite Nat.eqb_refl, IH.
Qed.

Lemma broadcast_layers (B L H : nat) :
  broadcast_shapes [B; 1; H] [B; L; H] = Ok ([B; L] ++ [H]).
Proof.
  unfold broadcast_shapes. simpl. rewrite Nat.eqb_refl.
  destruct L as [|[|L]]; simpl; now rewrite Nat.eqb_refl.
Qed.

Lemma broadcast_row (B L H : nat) :
  broadcast_shapes [H] [B; L; H] = Ok ([B; L] ++ [H]).
Proof.
  unfold broadcast_shapes. simpl. now rewrite Nat.eqb_refl.
Qed.

Section SGOpt.
Context {SC : Scalar}.

(** One pass of the loop on tensors of the shapes the loop meets. *)
Lemma loss_term_ok (B L : nat) (d e : list num) (i k : nat) :
  i < B -> k < L ->
  exists v, SGLossOpt3.loss_term (mkTensor [B; L] d) (mkTensor [B; B * L] e)
              (i, k) = Ok (mkTensor [] v).
Proof.
  intros Hi Hk. apply Nat.ltb_lt in Hi, Hk.
  unfold SGLossOpt3.loss_term, select2, select0.
  cbn [shape data bind result_Monad]. rewrite Hi.
  cbn [shape data bind result_Monad]. rewrite Hk.
  cbn [bind result_Monad].
  unfold tadd, binop, sum_all, tneg, tlog, tmap.
  cbn [shape data scalar].
  change (broadcast_shapes [] []) with (Ok (@nil nat)).
  cbn [bind result_Monad shape data].
  eexists. reflexivity.
Qed.

End SGOpt.

(** X10. On [cls] of shape [batch, hidden] and hidden states of shape
    [batch, layers, hidden], with at least one sentence and one layer,
    [SGLossOpt3.forward] returns a loss, and the loss is a single number. *)
Theorem SGLossOpt3_forward_returns {SC : Scalar} (self : SGLossOpt3.t)
    (cls hidden : ftensor) (batch layers hidden_dim : nat) :
  shape cls = [batch; hidden_dim] ->
  shape hidden = [batch; layers; hidden_dim] ->
  1 <= batch -> 1 <= layers ->
  exists v, SGLossOpt3.forward cls hidden self = (Ok (scalar v), self).
Proof.
  destruct cls as [sc c], hidden as [sh x]. cbn [shape].
  intros -> -> HB HL.
  unfold SGLossOpt3.forward, call, throw, ndim.
  cbn [shape length Nat.eqb negb].
  (* sim_ci_hik *)
  change (unsqueeze (mkTensor [batch; hidden_dim] c) 1)
    with (Ok (mkTensor [batch; 1; hidden_dim] c)).
  cbn [bind method_Monad ret].
  destruct (@cosine_shape SC (mkTensor [batch; 1; hidden_dim] c)
              (mkTensor [batch; layers; hidden_dim] x) [batch; layers]
              hidden_dim (broadcast_layers batch layers hidden_dim))
    as [d1 ->].
  (* sim_ci_hmn *)
  unfold iterate. cbn [shape data].
  destruct (mapM_Forall
              (fun c_i => cosine_similarity c_i
                            (mkTensor [batch; layers; hidden_dim] x))
              (fun u => shape u = [batch; layers])
              (map (mkTensor [hidden_dim])
                   (chunk (prod [hidden_dim]) batch c)))
    as (sims & -> & Hsims & Lsims).
  { intros r Hr. apply in_map_iff in Hr. destruct Hr as (row & <- & _).
    destruct (@cosine_shape SC (mkTensor [hidden_dim] row)
                (mkTensor [batch; layers; hidden_dim] x) [batch; layers]
                hidden_dim (broadcast_row batch layers hidden_dim))
      as [d ->].
    eexists. split; reflexivity. }
  rewrite length_map, chunk_length in Lsims.
  destruct (@stack_same_shape _ sims [batch; layers])
    as [d2 ->]; [intros ->; simpl in Lsims; lia|exact Hsims|].
  unfold ftensor in *. rewrite Lsims.
  (* the mask *)
  destruct (@binop_shape _ _ _ fsub (ones batch batch) (eye batch)
              [batch; batch] (broadcast_shapes_same [batch; batch]))
    as [d3 E3].
  unfold tsub. rewrite E3. cbv beta iota.
  unfold repeat_cols, pad_shape, reshape, texp, tmap, numel.
  cbn [shape data length Nat.sub repeat app].
  replace (prod [batch; batch; layers] =? prod [batch; batch * layers])
    with true by (symmetry; apply Nat.eqb_eq; simpl; lia).
  destruct (@binop_shape _ _ _ fmul
              (mkTensor [batch; batch * layers] (map fexp d2))
              (mkTensor [batch; batch * layers]
                 (flat_map (fun row => concat (repeat row layers))
                           (chunk batch batch d3)))
              [batch; batch * layers]
              (broadcast_shapes_same [batch; batch * layers])) as [d4 E4].
  cbv beta iota. unfold tmul. rewrite E4. cbv beta iota.
  (* the loop *)
  destruct (mapM_Forall
              (SGLossOpt3.loss_term (mkTensor [batch; layers] (map fexp d1))
                                    (mkTensor [batch; batch * layers] d4))
              (fun u => shape u = [])
              (list_prod (seq 0 batch) (seq 0 layers)))
    as (losses & Hloop & Hlosses & Llosses).
  { intros [i k] Hik. apply in_prod_iff in Hik. destruct Hik as [Hi Hk].
    apply in_seq in Hi, Hk.
    destruct (@loss_term_ok SC batch layers (map fexp d1) d4 i k)
      as [v ->]; [lia|lia|].
    eexists. split; reflexivity. }
  unfold ftensor in *. rewrite Hloop.
  rewrite length_prod, !length_seq in Llosses.
  destruct (@stack_same_shape _ losses [])
    as [d5 ->]; [intros ->; simpl in Llosses; nia|exact Hlosses|].
  eexists. reflexivity.
Qed.

Lemma SGLossOpt3_forward_returns_witness :
  shape batch_a = [2; 3] /\ shape layers_a = [2; 2; 3] /\ 1 <= 2 /\
  exists v, SGLossOpt3.forward (SC := symScalar) batch_a layers_a sample_opt3
            = (Ok (scalar v), sample_opt3).
Proof.
  split; [reflexivity|]. split; [reflexivity|]. split; [lia|].
  apply (@SGLossOpt3_forward_returns symScalar sample_opt3 batch_a layers_a
           2 2 3); first [reflexivity | lia].
Defined.

Lemma SGLossOpt3_forward_empty_witness :
  shape (mkTensor [2; 0; 3] (@nil sym)) = [2; 0; 3] /\
  (2 = 0 \/ 0 = 0) /\
  is_ok (fst (SGLossOpt3.forward (SC := symScalar) batch_a
                (mkTensor [2; 0; 3] []) sample_opt3)) = false.
Proof.
  split; [reflexivity|]. split; [now right|].
  apply (@SGLossOpt3_forward_empty symScalar sample_opt3 batch_a
           (mkTensor [2; 0; 3] []) 2 0 3); [reflexivity|now right].
Defined.

(** X11. On [cls] of shape [batch, hidden] and hidden states of shape
    [batch, layers, hidden], [SGLossOpt3Simplified.forward] returns a single
    number as soon as there is one sentence, and raises [RuntimeError] on
    the empty batch, where there is no row of [cls] to stack. *)
Theorem SGLossOpt3Simplified_forward_returns {SC : Scalar}
    (self : SGLossOpt3Simplified.t) (cls hidden : ftensor)
    (batch layers hidden_dim : nat) :
  shape cls = [batch; hidden_dim] ->
  shape hidden = [batch; layers; hidden_dim] ->
  (1 <= batch ->
   exists v, SGLossOpt3Simplified.forward cls hidden self
             = (Ok (scalar v), self)) /\
  (batch = 0 ->
   SGLossOpt3Simplified.forward cls hidden self = (Raise RuntimeError, self)).
Proof.
  destruct cls as [sc c], hidden as [sh x]. cbn [shape].
  intros -> ->.
  unfold SGLossOpt3Simplified.forward, call, throw, ndim.
  cbn [shape length Nat.eqb negb].
  change (unsqueeze (mkTensor [batch; hidden_dim] c) 1)
    with (Ok (mkTensor [batch; 1; hidden_dim] c)).
  cbn [bind method_Monad ret].
  destruct (@cosine_shape SC (mkTensor [batch; 1; hidden_dim] c)
              (mkTensor [batch; layers; hidden_dim] x) [batch; layers]
              hidden_dim (broadcast_layers batch layers hidden_dim))
    as [d1 ->].
  unfold iterate. cbn [shape data].
  split.
  - intro HB.
    destruct (mapM_Forall
                (fun c_i => cosine_similarity c_i
                              (mkTensor [batch; layers; hidden_dim] x))
                (fun u => shape u = [batch; layers])
                (map (mkTensor [hidden_dim])
                     (chunk (prod [hidden_dim]) batch c)))
      as (sims & -> & Hsims & Lsims).
    { intros r Hr. apply in_map_iff in Hr. destruct Hr as (row & <- & _).
      destruct (@cosine_shape SC (mkTensor [hidden_dim] row)
                  (mkTensor [batch; layers; hidden_dim] x) [batch; layers]
                  hidden_dim (broadcast_row batch layers hidden_dim))
        as [d ->].
      eexists. split; reflexivity. }
    rewrite length_map, chunk_length in Lsims.
    destruct (@stack_same_shape _ sims [batch; layers])
      as [d2 ->]; [intros ->; simpl in Lsims; lia|exact Hsims|].
    eexists. reflexivity.
  - intros ->. reflexivity.
Qed.

Lemma SGLossOpt3Simplified_forward_returns_witness :
  shape batch_a = [2; 3] /\ shape layers_a = [2; 2; 3] /\ 1 <= 2 /\
  exists v, SGLossOpt3Simplified.forward (SC := symScalar) batch_a layers_a
              sample_opt3s
            = (Ok (scalar v), sample_opt3s).
Proof.
  split; [reflexivity|]. split; [reflexivity|]. split; [lia|].
  apply (proj1 (@SGLossOpt3Simplified_forward_returns symScalar sample_opt3s
                  batch_a layers_a 2 2 3 eq_refl eq_refl)).
  lia.
Defined.

(** ** The combined loss *)

Section Combined.
Context {SC : Scalar}.

(** The weighted sampler called without a [weights] argument. *)
Lemma WeightedSampler_forward_None (self : WeightedSampler.t)
    (hidden_states : ftensor) :
  WeightedSampler.forward hidden_states None self
  = (Raise (if ndim hidden_states =? 3 then TypeError
            else NotImplementedError), self).
Proof.
  unfold WeightedSampler.forward, ndim. cbn [bind method_Monad ret].
  destruct (shape hidden_states) as [|b [|l [|h [|? ?]]]]; reflexivity.
Qed.

End Combined.

(** X12. A [TotalLoss] built on [SGLossOpt2] never returns a loss: that
    module returns the pair [(loss, sim)], and a pair does not add to the
    weighted regularisation term. *)
Theorem TotalLoss_forward_Opt2_fails {SC : Scalar} (m : SGLossOpt2.t)
    (sampler : TotalLoss.sampler_module) (regloss : RegLoss.t) (lamb : num)
    (cls hiddens : ftensor) (p1 p2 : list ftensor) :
  is_ok (fst (TotalLoss.forward cls hiddens p1 p2
                (TotalLoss.Build_t (TotalLoss.Opt2 m) sampler regloss lamb)))
  = false.
Proof.
  unfold TotalLoss.forward, getattr, on_attr, call.
  cbn [bind method_Monad TotalLoss.sgloss TotalLoss.is_opt3 negb
       TotalLoss.sampler].
  destruct (TotalLoss.sampler_call hiddens sampler) as [[h|e] s'];
    [|reflexivity].
  cbn [TotalLoss.set_sampler TotalLoss.sgloss TotalLoss.sgloss_call].
  destruct (SGLossOpt2.forward cls h m) as [[[loss sim]|e] m'];
    [|reflexivity].
  cbn [bind result_Monad TotalLoss.set_sgloss TotalLoss.lamb TotalLoss.regloss
       TotalLoss.set_sampler].
  destruct (RegLoss.forward p1 p2 regloss) as [[r|e] rg']; reflexivity.
Qed.

(** X13. [TotalLoss.forward] calls its sampler with the hidden states alone.
    A [WeightedSampler] then has no weights to measure, so a [TotalLoss]
    built on [SGLossOpt2] and a [WeightedSampler] stops at the sampler:
    with [TypeError] on hidden states of three dimensions and with
    [NotImplementedError] otherwise. *)
Theorem TotalLoss_forward_weighted_sampler {SC : Scalar} (m : SGLossOpt2.t)
    (w : WeightedSampler.t) (regloss : RegLoss.t) (lamb : num)
    (cls hiddens : ftensor) (p1 p2 : list ftensor) :
  fst (TotalLoss.forward cls hiddens p1 p2
         (TotalLoss.Build_t (TotalLoss.Opt2 m) (TotalLoss.Weighted w)
                            regloss lamb))
  = Raise (if ndim hiddens =? 3 then TypeError else NotImplementedError).
Proof.
  unfold TotalLoss.forward, getattr, on_attr, call.
  cbn [bind method_Monad TotalLoss.sgloss TotalLoss.is_opt3 negb
       TotalLoss.sampler TotalLoss.sampler_call].
  now rewrite WeightedSampler_forward_None.
Qed.

(** X14. A [TotalLoss] built on one of the two SG-opt losses never consults
    its sampler: the outcome is the one of the loss on the hidden states as
    given, then the one of the regularisation loss, and the value returned
    is [loss + lamb * regularisation]. *)
Theorem TotalLoss_forward_Opt3 {SC : Scalar} (sampler : TotalLoss.sampler_module)
    (regloss : RegLoss.t) (lamb : num) (cls hiddens : ftensor)
    (p1 p2 : list ftensor) :
  (forall m : SGLossOpt3.t,
     fst (TotalLoss.forward cls hiddens p1 p2
            (TotalLoss.Build_t (TotalLoss.Opt3 m) sampler regloss lamb))
     = (loss <- fst (SGLossOpt3.forward cls hiddens m) ;;
        reg <- fst (RegLoss.forward p1 p2 regloss) ;;
        total <- tadd loss (scalar_mul lamb reg) ;;
        Ok (TotalLoss.VTensor total))) /\
  (forall m : SGLossOpt3Simplified.t,
     fst (TotalLoss.forward cls hiddens p1 p2
            (TotalLoss.Build_t (TotalLoss.Opt3Simplified m) sampler regloss
                               lamb))
     = (loss <- fst (SGLossOpt3Simplified.forward cls hiddens m) ;;
        reg <- fst (RegLoss.forward p1 p2 regloss) ;;
        total <- tadd loss (scalar_mul lamb reg) ;;
        Ok (TotalLoss.VTensor total))).
Proof.
  split; intro m; unfold TotalLoss.forward, getattr, on_attr, call;
    cbn [bind method_Monad ret TotalLoss.sgloss TotalLoss.is_opt3 negb
         TotalLoss.sgloss_call].
  - destruct (SGLossOpt3.forward cls hiddens m) as [[x|e] m'];
      [|reflexivity].
    cbn [bind result_Monad fst TotalLoss.set_sgloss TotalLoss.lamb
         TotalLoss.regloss].
    destruct (RegLoss.forward p1 p2 regloss) as [[r|e] rg'];
      [|reflexivity].
    cbn [fst TotalLoss.py_add bind result_Monad].
    destruct (tadd x (scalar_mul lamb r)); reflexivity.
  - destruct (SGLossOpt3Simplified.forward cls hiddens m) as [[x|e] m'];
      [|reflexivity].
    cbn [bind result_Monad fst TotalLoss.set_sgloss TotalLoss.lamb
         TotalLoss.regloss].
    destruct (RegLoss.forward p1 p2 regloss) as [[r|e] rg'];
      [|reflexivity].
    cbn [fst TotalLoss.py_add bind result_Monad].
    destruct (tadd x (scalar_mul lamb r)); reflexivity.
Qed.

(** ** Batches of different sizes *)

Lemma labels_below (c n : nat) :
  forallb (fun y => y <? c) (seq 0 n) = (n <=? c).
Proof.
  destruct (n <=? c) eqn:E.
  - apply Nat.leb_le in E. apply forallb_forall. intros y Hy.
    apply in_seq in Hy. apply Nat.ltb_lt. lia.
  - apply Nat.leb_gt in E. apply Bool.not_true_iff_false. intro Hall.
    rewrite forallb_forall in Hall.
    assert (Hc : In c (seq 0 n)) by (apply in_seq; lia).
    apply Hall in Hc. apply Nat.ltb_lt in Hc. lia.
Qed.

Lemma broadcast_outer_sizes (B1 B2 H : nat) :
  broadcast_shapes [B1; 1; H] [1; B2; H] = Ok ([B1; B2] ++ [H]).
Proof.
  unfold broadcast_shapes. simpl. rewrite Nat.eqb_refl.
  destruct B2 as [|[|B2]], B1 as [|[|B1]]; reflexivity.
Qed.

(** X15. [UnsupContrastiveLoss.forward] does not ask the two batches to have
    one size.  For [first] of shape [n, hidden] and [second] of shape
    [m, hidden] it returns a loss over an [n]-by-[m] similarity matrix when
    [n <= m], and raises [IndexError] when [n > m], where the label [m] has
    no column; the first batch is not empty. *)
Theorem UnsupContrastiveLoss_forward_batch_sizes {SC : Scalar}
    (self : UnsupContrastiveLoss.t) (first second : ftensor)
    (n m hidden : nat) :
  shape first = [n; hidden] -> shape second = [m; hidden] ->
  (1 <= n -> n <= m ->
   exists loss sim,
     UnsupContrastiveLoss.forward first second self = (Ok (loss, sim), self) /\
     shape sim = [n; m]) /\
  (m < n ->
   UnsupContrastiveLoss.forward first second self = (Raise IndexError, self)).
Proof.
  destruct first as [s1 x], second as [s2 y]. cbn [shape]. intros -> ->.
  unfold UnsupContrastiveLoss.forward, call, getattr.
  change (unsqueeze (mkTensor [n; hidden] x) 1)
    with (Ok (mkTensor [n; 1; hidden] x)).
  change (unsqueeze (mkTensor [m; hidden] y) 0)
    with (Ok (mkTensor [1; m; hidden] y)).
  cbn [bind method_Monad ret].
  destruct (@cosine_shape SC (mkTensor [n; 1; hidden] x)
              (mkTensor [1; m; hidden] y) [n; m] hidden
              (broadcast_outer_sizes n m hidden)) as [d ->].
  unfold div_scalar, tmap, cross_entropy, arange.
  cbn [shape data shape0]. rewrite Nat.eqb_refl, labels_below.
  split; [intros _ Hnm|intro Hnm].
  - apply Nat.leb_le in Hnm. rewrite Hnm. eexists _, _. split; reflexivity.
  - apply Nat.leb_gt in Hnm. rewrite Hnm. reflexivity.
Qed.

Lemma UnsupContrastiveLoss_forward_batch_sizes_witness :
  shape (mkTensor [1; 3] (lit [1; 2; 3]%Z)) = [1; 3] /\
  shape batch_a = [2; 3] /\ 1 <= 1 /\ 1 <= 2 /\ 1 < 2 /\
  (exists loss sim,
     UnsupContrastiveLoss.forward (SC := symScalar)
       (mkTensor [1; 3] (lit [1; 2; 3]%Z)) batch_a sample_loss
     = (Ok (loss, sim), sample_loss) /\ shape sim = [1; 2]) /\
  UnsupContrastiveLoss.forward (SC := symScalar) batch_a
    (mkTensor [1; 3] (lit [1; 2; 3]%Z)) sample_loss
  = (Raise IndexError, sample_loss).
Proof.
  do 2 (split; [reflexivity|]). do 3 (split; [lia|]).
  split.
  - apply (proj1 (@UnsupContrastiveLoss_forward_batch_sizes symScalar
             sample_loss (mkTensor [1; 3] (lit [1; 2; 3]%Z)) batch_a 1 2 3
             eq_refl eq_refl)); lia.
  - apply (proj2 (@UnsupContrastiveLoss_forward_batch_sizes symScalar
             sample_loss batch_a (mkTensor [1; 3] (lit [1; 2; 3]%Z)) 2 1 3
             eq_refl eq_refl)).
    lia.
Defined.

(** X16. Two batches whose vectors have different lengths, neither of them
    one, do not broadcast: [UnsupContrastiveLoss.forward] raises
    [RuntimeError]. *)
Theorem UnsupContrastiveLoss_forward_hidden_mismatch {SC : Scalar}
    (self : UnsupContrastiveLoss.t) (first second : ftensor)
    (n m h1 h2 : nat) :
  shape first = [n; h1] -> shape second = [m; h2] ->
  h1 <> h2 -> h1 <> 1 -> h2 <> 1 ->
  UnsupContrastiveLoss.forward first second self = (Raise RuntimeError, self).
Proof.
  destruct first as [s1 x], second as [s2 y]. cbn [shape].
  intros -> -> H12 H1 H2.
  apply Nat.eqb_neq in H12, H1, H2.
  unfold UnsupContrastiveLoss.forward, call.
  change (unsqueeze (mkTensor [n; h1] x) 1) with (Ok (mkTensor [n; 1; h1] x)).
  change (unsqueeze (mkTensor [m; h2] y) 0) with (Ok (mkTensor [1; m; h2] y)).
  cbn [bind method_Monad].
  unfold cosine_similarity, broadcast_shapes.
  cbn [shape rev app broadcast_rev]. rewrite H12, H1, H2. reflexivity.
Qed.

Lemma UnsupContrastiveLoss_forward_hidden_mismatch_witness :
  shape batch_a = [2; 3] /\
  shape (mkTensor [2; 2] (lit [1; 2; 3; 4]%Z)) = [2; 2] /\
  3 <> 2 /\ 3 <> 1 /\ 2 <> 1 /\
  UnsupContrastiveLoss.forward (SC := symScalar) batch_a
    (mkTensor [2; 2] (lit [1; 2; 3; 4]%Z)) sample_loss
  = (Raise RuntimeError, sample_loss).
Proof.
  do 2 (split; [reflexivity|]). do 3 (split; [lia|]).
  apply (@UnsupContrastiveLoss_forward_hidden_mismatch symScalar sample_loss
           batch_a (mkTensor [2; 2] (lit [1; 2; 3; 4]%Z)) 2 2 3 2);
    first [reflexivity | lia].
Defined.

(** ** More on the SimCSE wrappers *)

Section MoreWrappers.
Context {SC : Scalar}.

Lemma SupContrastiveLoss_forward_not_ok (self : SupContrastiveLoss.t)
    (premise entail contra : ftensor) :
  is_ok (fst (SupContrastiveLoss.forward premise entail contra self)) = false.
Proof.
  unfold SupContrastiveLoss.forward, call, getattr.
  cbn [bind method_Monad].
  destruct (unsqueeze premise 1); [|reflexivity].
  destruct (unsqueeze entail 0); [|reflexivity].
  destruct (cosine_similarity _ _); [|reflexivity].
  destruct (unsqueeze contra 0); [|reflexivity].
  destruct (cosine_similarity _ _); reflexivity.
Qed.

Lemma fst_on_attr {S T A : Type} (f : S -> T) (upd : T -> S -> S)
    (m : method T A) (s : S) :
  fst (on_attr f upd m s) = fst (m (f s)).
Proof. unfold on_attr. now destruct (m (f s)). Qed.

End MoreWrappers.

(** X17. [SupSimCSE.forward] never returns, whatever is stored in
    [self.bert] and whatever the inputs: a call that gets as far as the
    contrastive loss fails there. *)
Theorem SupSimCSE_forward_never_returns {SC : Scalar}
    (pooler : string -> tensor Z -> tensor Z -> tensor Z -> result ftensor)
    (self : SupSimCSE.t) (input_ids attention_mask : tensor Z)
    (token_type_ids : option (tensor Z)) :
  is_ok (fst (SupSimCSE.forward pooler input_ids attention_mask
                token_type_ids self)) = false.
Proof.
  unfold SupSimCSE.forward.
  destruct (negb (ndim input_ids =? 3)); [reflexivity|].
  destruct (shape input_ids) as [|b [|v [|h [|? ?]]]]; try reflexivity.
  unfold call, getattr. cbn [bind method_Monad].
  destruct (reshape input_ids _); [|reflexivity].
  destruct (reshape attention_mask _); [|reflexivity].
  destruct token_type_ids as [ids|]; cbn [bind method_Monad ret load_local];
    [|reflexivity].
  destruct (reshape ids _); [|reflexivity].
  unfold load_local.
  destruct (pooler_output pooler _ _ _ _) as [out|]; [|reflexivity].
  destruct (reshape out _) as [views|]; [|reflexivity].
  destruct (select1 views 0); [|reflexivity].
  destruct (select1 views 1); [|reflexivity].
  destruct (select1 views 2); [|reflexivity].
  rewrite fst_on_attr. apply SupContrastiveLoss_forward_not_ok.
Qed.

(** X18. Both wrappers flatten [input_ids] to [batch * views] rows, with two
    views (three for the supervised wrapper).  A non-empty [input_ids] of
    shape [batch, v, length] with another number [v] of views does not
    reshape: [forward] raises [RuntimeError], with or without
    [token_type_ids]. *)
Theorem SimCSE_forward_views {SC : Scalar}
    (pooler : string -> tensor Z -> tensor Z -> tensor Z -> result ftensor)
    (unsup : UnsupSimCSE.t) (sup : SupSimCSE.t)
    (input_ids attention_mask : tensor Z) (token_type_ids : option (tensor Z))
    (batch v length : nat) :
  shape input_ids = [batch; v; length] -> batch <> 0 -> length <> 0 ->
  (v <> 2 ->
   UnsupSimCSE.forward pooler input_ids attention_mask token_type_ids unsup
   = (Raise RuntimeError, unsup)) /\
  (v <> 3 ->
   SupSimCSE.forward pooler input_ids attention_mask token_type_ids sup
   = (Raise RuntimeError, sup)).
Proof.
  intros Hs Hb Hl.
  unfold UnsupSimCSE.forward, SupSimCSE.forward, ndim, reshape, numel, call.
  rewrite Hs. cbn [List.length Nat.eqb negb].
  split; intro Hv.
  - replace (prod [batch; v; length] =? prod [batch * 2; length]) with false;
      [reflexivity|].
    symmetry. apply Nat.eqb_neq. simpl. nia.
  - replace (prod [batch; v; length] =? prod [batch * 3; length]) with false;
      [reflexivity|].
    symmetry. apply Nat.eqb_neq. simpl. nia.
Qed.

Lemma SimCSE_forward_views_witness :
  shape three_views = [1; 3; 2] /\ 1 <> 0 /\ 2 <> 0 /\ 3 <> 2 /\
  shape tokens = [1; 2; 3] /\ 3 <> 0 /\ 2 <> 3 /\
  UnsupSimCSE.forward (SC := symScalar) toy_pooler three_views three_views
    (Some three_views) sample_unsup
  = (Raise RuntimeError, sample_unsup) /\
  SupSimCSE.forward (SC := symScalar) toy_pooler tokens mask (Some tokens)
    sample_sup
  = (Raise RuntimeError, sample_sup).
Proof.
  split; [reflexivity|]. do 3 (split; [lia|]).
  split; [reflexivity|]. do 2 (split; [lia|]).
  split.
  - apply (proj1 (@SimCSE_forward_views symScalar toy_pooler sample_unsup
             sample_sup three_views three_views (Some three_views) 1 3 2
             eq_refl ltac:(lia) ltac:(lia))).
    lia.
  - apply (proj2 (@SimCSE_forward_views symScalar toy_pooler sample_unsup
             sample_sup tokens mask (Some tokens) 1 2 3
             eq_refl ltac:(lia) ltac:(lia))).
    lia.
Defined.

(** X19. Were an encoder stored in [self.bert], [UnsupSimCSE.forward] would
    reshape its pooled output to [batch, 2, length], where [length] is the
    token length of [input_ids].  A pooled output with another number of
    elements raises [RuntimeError]; one that fits is cut into its two views
    and the outcome is the one of the contrastive loss on them. *)
Theorem UnsupSimCSE_forward_encoder {SC : Scalar}
    (pooler : string -> tensor Z -> tensor Z -> tensor Z -> result ftensor)
    (self : UnsupSimCSE.t) (name : string)
    (input_ids attention_mask token_type_ids : tensor Z)
    (batch length : nat) (pooled : ftensor) :
  UnsupSimCSE.bert self = Encoder name ->
  shape input_ids = [batch; 2; length] ->
  numel attention_mask = prod [batch * 2; length] ->
  numel token_type_ids = prod [batch * 2; length] ->
  pooler name (mkTensor [batch * 2; length] (data input_ids))
              (mkTensor [batch * 2; length] (data attention_mask))
              (mkTensor [batch * 2; length] (data token_type_ids))
  = Ok pooled ->
  (numel pooled <> prod [batch; 2; length] ->
   UnsupSimCSE.forward pooler input_ids attention_mask (Some token_type_ids)
     self
   = (Raise RuntimeError, self)) /\
  (numel pooled = prod [batch; 2; length] ->
   exists first last,
     select1 (mkTensor [batch; 2; length] (data pooled)) 0 = Ok first /\
     select1 (mkTensor [batch; 2; length] (data pooled)) 1 = Ok last /\
     fst (UnsupSimCSE.forward pooler input_ids attention_mask
            (Some token_type_ids) self)
     = fst (UnsupContrastiveLoss.forward first last
              (UnsupSimCSE.contra_loss self))).
Proof.
  intros Hb Hs Hm Ht Hp.
  unfold UnsupSimCSE.forward, ndim, call, getattr, reshape, load_local.
  rewrite Hs, Hm, Ht. cbn [List.length Nat.eqb negb].
  replace (numel input_ids =? prod [batch * 2; length]) with true
    by (symmetry; apply Nat.eqb_eq; unfold numel; rewrite Hs; simpl; lia).
  rewrite Nat.eqb_refl. cbn [bind method_Monad ret].
  rewrite Hb. cbn [pooler_output]. rewrite Hp.
  split; intro Hn.
  - apply Nat.eqb_neq in Hn. rewrite Hn. reflexivity.
  - rewrite Hn, Nat.eqb_refl.
    unfold select1. cbn [shape data bind method_Monad].
    change (0 <? 2) with true. change (1 <? 2) with true.
    cbv beta iota.
    eexists _, _. split; [reflexivity|]. split; [reflexivity|].
    rewrite fst_on_attr. reflexivity.
Qed.

Lemma UnsupSimCSE_forward_encoder_witness :
  UnsupSimCSE.bert sample_unsup_encoder = Encoder "bert-base-uncased" /\
  shape tokens = [1; 2; 3] /\
  numel mask = prod [1 * 2; 3] /\
  numel tokens = prod [1 * 2; 3] /\
  wide_pooler "bert-base-uncased" (mkTensor [1 * 2; 3] (data tokens))
    (mkTensor [1 * 2; 3] (data mask)) (mkTensor [1 * 2; 3] (data tokens))
  = Ok (mkTensor [2; 4] (repeat (SLit 1) 8)) /\
  numel (mkTensor [2; 4] (repeat (SLit 1) 8)) <> prod [1; 2; 3] /\
  UnsupSimCSE.forward (SC := symScalar) wide_pooler tokens mask (Some tokens)
    sample_unsup_encoder
  = (Raise RuntimeError, sample_unsup_encoder).
Proof.
  do 5 (split; [reflexivity|]). split; [discriminate|].
  apply (proj1 (@UnsupSimCSE_forward_encoder symScalar wide_pooler
                  sample_unsup_encoder "bert-base-uncased" tokens mask tokens
                  1 3 (mkTensor [2; 4] (repeat (SLit 1) 8))
                  eq_refl eq_refl eq_refl eq_refl eq_refl)).
  discriminate.
Defined.
